(** * go-workq: the Workq client protocol codec

    A shallow embedding of [client.go], [error.go] and [job.go]:
    the command encoder (Add, Run, Result, Lease, InspectJobs) and the
    response decoder ([readLine], [readBlock], [parseOk],
    [parseOkWithReply], [readResult], [readLeasedJob],
    [readInspectedJobs], [parseInspectedJob], [errorFromLine]).

    Conventions.
    - A Go [string] and a Go [[]byte] are both byte sequences; they are
      modelled by [string] (a list of 8-bit [ascii] characters).
    - A Go [int] is the 64-bit signed integer, modelled in [Z]; the
      conversions [int(uint64)] are written out with their wrap-around.
    - The connection is explicit state: the bytes still to be delivered by
      the peer, the error the transport reports once they are exhausted,
      and the bytes written so far.  Every decoder function returns its
      result together with the reader it leaves behind, also on failure. *)

From Stdlib Require Import ZArith List Bool Ascii String Lia.
From Stdlib Require Import DecimalString Decimal.
From Stdlib Require DecimalPos.
Import ListNotations.

Local Open Scope string_scope.
Local Open Scope Z_scope.

(** ** Bytes and strings *)

Module Bytes.

Definition CR : ascii := "013"%char.
Definition LF : ascii := "010"%char.
Definition SP : ascii := " "%char.

(** Go's [len(s)], as an [int]. *)
Definition len (s : string) : Z := Z.of_nat (String.length s).

(** [s[i:j]] on indices already known to be in range. *)
Definition slice (s : string) (i j : nat) : string := substring i (j - i) s.

(** [s[i:]]. *)
Fixpoint drop (n : nat) (s : string) : string :=
  match n, s with
  | O, _ => s
  | S n', String _ s' => drop n' s'
  | S _, EmptyString => EmptyString
  end.

(** [s[:n]]. *)
Fixpoint take (n : nat) (s : string) : string :=
  match n, s with
  | O, _ => EmptyString
  | S n', String c s' => String c (take n' s')
  | S _, EmptyString => EmptyString
  end.

(** [strings.Split(s, " ")]: one more field than there are spaces. *)
Fixpoint Split (s : string) : list string :=
  match s with
  | EmptyString => [EmptyString]
  | String c s' =>
      if Ascii.eqb c SP then EmptyString :: Split s'
      else match Split s' with
           | h :: t => String c h :: t
           | [] => [String c EmptyString]
           end
  end.

(** [strings.SplitN(s, " ", 2)]: cut at the first space only. *)
Fixpoint SplitN2 (s : string) : list string :=
  match s with
  | EmptyString => [EmptyString]
  | String c s' =>
      if Ascii.eqb c SP then [EmptyString; s']
      else match SplitN2 s' with
           | h :: t => String c h :: t
           | [] => [String c EmptyString]
           end
  end.

(** [strings.Join(l, sep)]. *)
Fixpoint Join (l : list string) (sep : string) : string :=
  match l with
  | [] => EmptyString
  | [x] => x
  | x :: rest => x ++ sep ++ Join rest sep
  end.

End Bytes.
Import Bytes.

(** ** strconv *)

Module strconv.

Inductive NumErr := ErrSyntax | ErrRange.

Definition digit (c : ascii) : option Z :=
  let n := Z.of_nat (nat_of_ascii c) in
  if (48 <=? n) && (n <=? 57) then Some (n - 48) else None.

(** The digit loop of [ParseUint] in base 10: left to right, a byte that
    is no digit is a syntax error, a value above [maxVal] a range error,
    whichever comes first. *)
Fixpoint digits (s : string) (n maxVal : Z) : NumErr + Z :=
  match s with
  | EmptyString => inr n
  | String c s' =>
      match digit c with
      | None => inl ErrSyntax
      | Some d =>
          let n1 := n * 10 + d in
          if n1 >? maxVal then inl ErrRange else digits s' n1 maxVal
      end
  end.

(** [strconv.ParseUint(s, 10, bitSize)]. *)
Definition ParseUint (s : string) (bitSize : Z) : NumErr + Z :=
  match s with
  | EmptyString => inl ErrSyntax
  | _ => digits s 0 (2 ^ bitSize - 1)
  end.

(** [strconv.ParseInt(s, 10, bitSize)]: an optional sign, then the
    unsigned digits, then the signed range check. *)
Definition ParseInt (s : string) (bitSize : Z) : NumErr + Z :=
  match s with
  | EmptyString => inl ErrSyntax
  | String c s' =>
      let neg := Ascii.eqb c "-" in
      let body := if Ascii.eqb c "+" || neg then s' else s in
      match ParseUint body bitSize with
      | inl e => inl e
      | inr un =>
          let cutoff := 2 ^ (bitSize - 1) in
          if negb neg && (un >=? cutoff) then inl ErrRange
          else if neg && (un >? cutoff) then inl ErrRange
          else inr (if neg then - un else un)
      end
  end.

(** [strconv.Atoi(s)], the [int] being 64 bits wide. *)
Definition Atoi (s : string) : NumErr + Z := ParseInt s 64.

(** [fmt.Sprintf("%d", n)]. *)
Definition Itoa (n : Z) : string := NilZero.string_of_int (Z.to_int n).

End strconv.

(** [int(u)] for a [uint64] value [u] on a 64-bit platform. *)
Definition int_of_uint64 (u : Z) : Z :=
  if u <? 2 ^ 63 then u else u - 2 ^ 64.

(** ** Errors ([error.go] and the package-level error values) *)

Inductive error : Type :=
  | ErrMalformed                              (* errors.New("Malformed response") *)
  | ErrPayloadMustFollowSize
  | ResponseError (code text : string)        (* NewResponseError *)
  | NetError (text : string)                  (* NewNetError *)
  | NumError (fn num : string) (e : strconv.NumErr).  (* strconv.NumError *)

(** [(e *ResponseError) Error()]. *)
Definition ResponseError_Error (code text : string) : string :=
  if negb (String.eqb text "") then code ++ " " ++ text else code.

(** A Go result pair [(value, err)]: either the value or the error. *)
Inductive Res (A : Type) : Type :=
  | Ok (a : A)
  | Err (e : error).
Arguments Ok {A} a.
Arguments Err {A} e.

(** ** Constants of [client.go] *)

Definition maxDataBlock : Z := 1048576.
Definition crnl : string := String CR (String LF EmptyString).
Definition termLen : Z := 2.
Definition payloadKey : string := "payload ".

(** ** The inbound stream: [bufio.Reader] over the connection

    [pending] are the bytes the peer has sent and the reader has not yet
    consumed; [fail] is the text of the error the transport reports once
    they are exhausted (["EOF"] when the peer closed the stream). *)

Record Reader : Type := mkReader { pending : string; fail : string }.

(** How many of the pending bytes one call of [Read] can hand over is no
    property of the bytes: it is what is left in the 4096-byte buffer of
    the [bufio.Reader] or, when the buffer is empty, what the next read of
    the connection delivers.  Where the buffer ends depends on the reads
    made so far and on how the transport cuts the stream, so the decoder
    is modelled for every such behaviour: [buffered r] is the number of
    bytes a [Read] can take at the reader state [r] without a second read
    of the connection.  [ReadBytes] and [io.ReadAtLeast] read on until
    they have what they were asked for, and do not depend on it. *)

Class Buffering : Type := buffered : Reader -> nat.

Module bufio.

(** Cut [s] after the first [delim]: the prefix with the delimiter, and
    the rest; [None] when [s] has no [delim]. *)
Fixpoint cut (delim : ascii) (s : string) : option (string * string) :=
  match s with
  | EmptyString => None
  | String c s' =>
      if Ascii.eqb c delim then Some (String c EmptyString, s')
      else match cut delim s' with
           | Some (l, rest) => Some (String c l, rest)
           | None => None
           end
  end.

(** [Reader.ReadBytes(delim)] of bufio: the bytes up to and including the
    delimiter; without one, everything that was left and the error. *)
Definition ReadBytes (delim : ascii) (r : Reader)
  : string * option string * Reader :=
  match cut delim (pending r) with
  | Some (l, rest) => (l, None, mkReader rest (fail r))
  | None => (pending r, Some (fail r), mkReader "" (fail r))
  end.

(** [Reader.Read(b)] of bufio with [len(b) = n > 0]: the bytes read (their
    number is Go's [n]) and the error.  One call copies what the buffer
    holds, at most [n] bytes and, on a stream that has bytes left, at
    least one; it does not read on to fill [b]. *)
Definition Read {B : Buffering} (n : nat) (r : Reader)
  : string * option string * Reader :=
  match pending r with
  | EmptyString => ("", Some (fail r), r)
  | s => let k := Nat.min n (Nat.max 1 (buffered r)) in
         (take k s, None, mkReader (drop k s) (fail r))
  end.

End bufio.

Module io.

(** [io.ReadAtLeast(rdr, buf, min)] with [len(buf) = min = n]: reads until
    [n] bytes are there or the stream fails.  Nothing is read for
    [n = 0]. *)
Definition ReadAtLeast (n : nat) (r : Reader) : string * option string * Reader :=
  if (n <=? String.length (pending r))%nat then
    (take n (pending r), None, mkReader (drop n (pending r)) (fail r))
  else
    (pending r,
     Some (if negb (String.eqb (pending r) "") && String.eqb (fail r) "EOF"
           then "unexpected EOF" else fail r),
     mkReader "" (fail r)).

End io.

Definition isSome {A} (o : option A) : bool :=
  match o with Some _ => true | None => false end.

(** ** Decoder primitives

    Every function of [responseParser] takes the reader and returns the
    Go result with the reader as it leaves it. *)

Definition Parser (A : Type) : Type := Reader -> Res A * Reader.

Definition ret {A} (a : A) : Parser A := fun r => (Ok a, r).
Definition raise {A} (e : error) : Parser A := fun r => (Err e, r).
Definition bind {A B} (c : Parser A) (k : A -> Parser B) : Parser B :=
  fun r => match c r with
           | (Ok a, r1) => k a r1
           | (Err e, r1) => (Err e, r1)
           end.

Notation "x <- c ;; k" := (bind c (fun x => k))
  (at level 61, c at next level, right associativity).

(** [readLine]: a line terminated by "\r\n", returned without it. *)
Definition readLine : Parser string := fun r =>
  let '(line, err, r1) := bufio.ReadBytes LF r in
  match err with
  | Some e => (Err (NetError e), r1)
  | None =>
      if len line <? termLen then (Err ErrMalformed, r1)
      else
        match String.get (String.length line - 2) line with
        | Some c =>
            if negb (Ascii.eqb c CR) then (Err ErrMalformed, r1)
            else (Ok (take (String.length line - 2) line), r1)
        | None => (Err ErrMalformed, r1)
        end
  end.

(** [readBlock(size)]: [size] bytes verbatim, then "\r\n". *)
Definition readBlock {B : Buffering} (size : Z) : Parser string := fun r =>
  if (size <? 0) || (size >? maxDataBlock) then (Err ErrMalformed, r)
  else
    let '(block, err, r1) := io.ReadAtLeast (Z.to_nat size) r in
    if negb (len block =? size) || isSome err then (Err ErrMalformed, r1)
    else
      let '(b, err2, r2) := bufio.Read (Z.to_nat termLen) r1 in
      if isSome err2 || negb (len b =? termLen) || negb (String.eqb b crnl)
      then (Err ErrMalformed, r2)
      else (Ok block, r2).

(** ** Job records ([job.go]) *)

Module FgJob.
Record t : Type := mk
  { ID : string; Name : string; TTR : Z; Timeout : Z;
    Payload : string; Priority : Z }.
End FgJob.

Module BgJob.
Record t : Type := mk
  { ID : string; Name : string; TTR : Z; TTL : Z; Payload : string;
    Priority : Z; MaxAttempts : Z; MaxFails : Z }.
(** [&BgJob{}]: every field at its zero value. *)
Definition zero : t := mk "" "" 0 0 "" 0 0 0.
End BgJob.

Module LeasedJob.
Record t : Type := mk
  { ID : string; Name : string; TTR : Z; Payload : string }.
End LeasedJob.

Module JobResult.
Record t : Type := mk { Success : bool; Result : string }.
End JobResult.

Module InspectedJob.
(** [Time] stands for [time.Time]; [Created] is [None] for its zero
    value, before a [created] key has been read. *)
Record t (Time : Type) : Type := mk
  { Bg : BgJob.t; Attempts : Z; Fails : Z; State : Z;
    Created : option Time }.
Arguments mk {Time}.
Arguments Bg {Time}.
Arguments Attempts {Time}.
Arguments Fails {Time}.
Arguments State {Time}.
Arguments Created {Time}.

Definition zero {Time} : t Time := mk BgJob.zero 0 0 0 None.

Section Setters.
Context {Time : Type}.
Implicit Type j : t Time.

Definition with_Bg j (f : BgJob.t -> BgJob.t) : t Time :=
  mk (f (Bg j)) (Attempts j) (Fails j) (State j) (Created j).

Definition set_ID j (v : string) := with_Bg j (fun b =>
  BgJob.mk v (BgJob.Name b) (BgJob.TTR b) (BgJob.TTL b) (BgJob.Payload b)
           (BgJob.Priority b) (BgJob.MaxAttempts b) (BgJob.MaxFails b)).
Definition set_Name j (v : string) := with_Bg j (fun b =>
  BgJob.mk (BgJob.ID b) v (BgJob.TTR b) (BgJob.TTL b) (BgJob.Payload b)
           (BgJob.Priority b) (BgJob.MaxAttempts b) (BgJob.MaxFails b)).
Definition set_TTR j (v : Z) := with_Bg j (fun b =>
  BgJob.mk (BgJob.ID b) (BgJob.Name b) v (BgJob.TTL b) (BgJob.Payload b)
           (BgJob.Priority b) (BgJob.MaxAttempts b) (BgJob.MaxFails b)).
Definition set_TTL j (v : Z) := with_Bg j (fun b =>
  BgJob.mk (BgJob.ID b) (BgJob.Name b) (BgJob.TTR b) v (BgJob.Payload b)
           (BgJob.Priority b) (BgJob.MaxAttempts b) (BgJob.MaxFails b)).
Definition set_Payload j (v : string) := with_Bg j (fun b =>
  BgJob.mk (BgJob.ID b) (BgJob.Name b) (BgJob.TTR b) (BgJob.TTL b) v
           (BgJob.Priority b) (BgJob.MaxAttempts b) (BgJob.MaxFails b)).
Definition set_Priority j (v : Z) := with_Bg j (fun b =>
  BgJob.mk (BgJob.ID b) (BgJob.Name b) (BgJob.TTR b) (BgJob.TTL b)
           (BgJob.Payload b) v (BgJob.MaxAttempts b) (BgJob.MaxFails b)).
Definition set_MaxAttempts j (v : Z) := with_Bg j (fun b =>
  BgJob.mk (BgJob.ID b) (BgJob.Name b) (BgJob.TTR b) (BgJob.TTL b)
           (BgJob.Payload b) (BgJob.Priority b) v (BgJob.MaxFails b)).
Definition set_MaxFails j (v : Z) := with_Bg j (fun b =>
  BgJob.mk (BgJob.ID b) (BgJob.Name b) (BgJob.TTR b) (BgJob.TTL b)
           (BgJob.Payload b) (BgJob.Priority b) (BgJob.MaxAttempts b) v).
Definition set_Attempts j (v : Z) :=
  mk (Bg j) v (Fails j) (State j) (Created j).
Definition set_Fails j (v : Z) :=
  mk (Bg j) (Attempts j) v (State j) (Created j).
Definition set_State j (v : Z) :=
  mk (Bg j) (Attempts j) (Fails j) v (Created j).
Definition set_Created j (v : Time) :=
  mk (Bg j) (Attempts j) (Fails j) (State j) (Some v).
End Setters.
End InspectedJob.

(** ** Acknowledgement lines *)

(** [errorFromLine]: an error from "-CODE TEXT"; the boolean tells whether
    the line was a well-formed error line. *)
Definition errorFromLine (line : string) : error * bool :=
  let split := SplitN2 line in
  let split0 := hd "" split in
  if len split0 <=? 1 then (ErrMalformed, false)
  else
    let code := drop 1 split0 in
    match split with
    | [_; split1] =>
        if len split1 =? 0 then (ErrMalformed, false)
        else (ResponseError code split1, true)
    | _ => (ResponseError code "", true)
    end.

(** [string(line[0])]. *)
Definition sign (line : string) : string := take 1 line.

(** [parseOk]: the "+OK" line, or an error line. *)
Definition parseOk : Parser unit :=
  line <- readLine ;;
  if len line <? 3 then raise ErrMalformed
  else if String.eqb (sign line) "+" && String.eqb (slice line 1 3) "OK"
          && (len line =? 3)
  then ret tt
  else if negb (String.eqb (sign line) "-") then raise ErrMalformed
  else raise (fst (errorFromLine line)).

(** [parseOkWithReply]: the "+OK <reply-count>" line, or an error line. *)
Definition parseOkWithReply : Parser Z :=
  line <- readLine ;;
  if len line <? 5 then raise ErrMalformed
  else if String.eqb (sign line) "+" && String.eqb (slice line 1 3) "OK"
  then match strconv.Atoi (drop 4 line) with
       | inl _ => raise ErrMalformed
       | inr count => ret count
       end
  else if negb (String.eqb (sign line) "-") then raise ErrMalformed
  else raise (fst (errorFromLine line)).

(** [line, err := p.readLine()] where [err] is never looked at: the line
    is [nil] when the read failed. *)
Definition readLine_unchecked (r : Reader) : string * Reader :=
  match readLine r with
  | (Ok line, r1) => (line, r1)
  | (Err _, r1) => ("", r1)
  end.

(** [readResult]: "<id> <success> <result-length>" and the result block. *)
Definition readResult {B : Buffering} : Parser JobResult.t := fun r =>
  let '(line, r1) := readLine_unchecked r in
  match Split line with
  | [_; split1; split2] =>
      if negb (String.eqb split1 "0") && negb (String.eqb split1 "1")
      then (Err ErrMalformed, r1)
      else
        let success := String.eqb split1 "1" in
        match strconv.ParseUint split2 64 with
        | inl _ => (Err ErrMalformed, r1)
        | inr resultLen =>
            match readBlock (int_of_uint64 resultLen) r1 with
            | (Err e, r2) => (Err e, r2)
            | (Ok block, r2) => (Ok (JobResult.mk success block), r2)
            end
        end
  | _ => (Err ErrMalformed, r1)
  end.

(** ** Names *)

(** One byte of the class [a-zA-Z0-9_.-]. *)
Definition nameChar (c : ascii) : bool :=
  let n := nat_of_ascii c in
  ((97 <=? n) && (n <=? 122) || (65 <=? n) && (n <=? 90)
   || (48 <=? n) && (n <=? 57)
   || (n =? 95) || (n =? 46) || (n =? 45))%nat.

(** [nameRe.MatchString] for [nameRe = "^[a-zA-Z0-9_.-]*$"]. *)
Fixpoint nameRe_MatchString (s : string) : bool :=
  match s with
  | EmptyString => true
  | String c s' => nameChar c && nameRe_MatchString s'
  end.

(** [nameFromString]. *)
Definition nameFromString (name : string) : Res string :=
  let l := len name in
  if (l >? 0) && (l <=? 128) && nameRe_MatchString name then Ok name
  else Err ErrMalformed.

(** ** Records of a counted response

    Two functions the decoder calls belong to other packages and are left
    open here: [uuid.FromString] of github.com/satori/go.uuid, of which
    only the verdict is used, and [time.Parse(time.RFC3339, _)]. *)

Section Decoder.

Context {B : Buffering}.
Variable uuid_FromString : string -> bool.
Variable Time : Type.
Variable time_Parse_RFC3339 : string -> option Time.

(** [idFromString]. *)
Definition idFromString (s : string) : Res string :=
  if uuid_FromString s then Ok s else Err ErrMalformed.

(** [readLeasedJob]: one line and the payload block. *)
Definition readLeasedJob : Parser LeasedJob.t := fun r =>
  let '(line, r1) := readLine_unchecked r in
  match Split line with
  | [split0; split1; split2; split3] =>
      match idFromString split0 with
      | Err e => (Err e, r1)
      | Ok id =>
          match nameFromString split1 with
          | Err e => (Err e, r1)
          | Ok name =>
              match strconv.ParseInt split2 64 with
              | inl _ => (Err ErrMalformed, r1)
              | inr ttr =>
                  match strconv.ParseUint split3 64 with
                  | inl _ => (Err ErrMalformed, r1)
                  | inr payloadLen =>
                      match readBlock (int_of_uint64 payloadLen) r1 with
                      | (Err e, r2) => (Err e, r2)
                      | (Ok payload, r2) =>
                          (Ok (LeasedJob.mk id name ttr payload), r2)
                      end
                  end
              end
          end
      end
  | _ => (Err ErrMalformed, r1)
  end.

#[local] Abbreviation IJob := (InspectedJob.t Time).

(** One unsigned numeric key of an inspected job: parse, store, go on. *)
Definition numKey (value : string) (bitSize : Z) (r1 : Reader)
    (k : Z -> Res IJob * Reader) : Res IJob * Reader :=
  match strconv.ParseUint value bitSize with
  | inl _ => (Err ErrMalformed, r1)
  | inr v => k v
  end.

(** The key loop of [parseInspectedJob],
    [for k := 0; k < keyCount; k++ { ... }], by recursion on the number
    [n = keyCount - k] of values of [k] still to come.  An ordinary key
    goes on with [n - 1]; the [payload-size] case, with its own [k++],
    goes on with [n - 2]. *)
Fixpoint keyLoop (n : nat) (j : IJob) (r : Reader) : Res IJob * Reader :=
  match n with
  | O => (Ok j, r)
  | S n' =>
      match readLine r with
      | (Err _, r1) => (Err ErrMalformed, r1)
      | (Ok line, r1) =>
          match Split line with
          | [key; value] =>
              if String.eqb key "name" then
                keyLoop n' (InspectedJob.set_Name j value) r1
              else if String.eqb key "ttr" then
                numKey value 32 r1 (fun ttr =>
                  keyLoop n' (InspectedJob.set_TTR j ttr) r1)
              else if String.eqb key "ttl" then
                numKey value 64 r1 (fun ttl =>
                  keyLoop n' (InspectedJob.set_TTL j (int_of_uint64 ttl)) r1)
              else if String.eqb key "payload" then
                (Err ErrPayloadMustFollowSize, r1)
              else if String.eqb key "payload-size" then
                match strconv.ParseUint value 64 with
                | inl e => (Err (NumError "ParseUint" value e), r1)
                | inr payloadSize =>
                    let '(b, err, r2) :=
                      bufio.Read (String.length payloadKey) r1 in
                    if isSome err || negb (len b =? len payloadKey)
                       || negb (String.eqb b payloadKey)
                    then (Err ErrPayloadMustFollowSize, r2)
                    else
                      match readBlock (int_of_uint64 payloadSize) r2 with
                      | (Err e, r3) => (Err e, r3)
                      | (Ok payload, r3) =>
                          keyLoop (Nat.pred n')
                                  (InspectedJob.set_Payload j payload) r3
                      end
                end
              else if String.eqb key "max-attempts" then
                numKey value 8 r1 (fun v =>
                  keyLoop n' (InspectedJob.set_MaxAttempts j v) r1)
              else if String.eqb key "attempts" then
                numKey value 8 r1 (fun v =>
                  keyLoop n' (InspectedJob.set_Attempts j v) r1)
              else if String.eqb key "max-fails" then
                numKey value 8 r1 (fun v =>
                  keyLoop n' (InspectedJob.set_MaxFails j v) r1)
              else if String.eqb key "fails" then
                numKey value 8 r1 (fun v =>
                  keyLoop n' (InspectedJob.set_Fails j v) r1)
              else if String.eqb key "priority" then
                match strconv.ParseInt value 32 with
                | inl _ => (Err ErrMalformed, r1)
                | inr v => keyLoop n' (InspectedJob.set_Priority j v) r1
                end
              else if String.eqb key "state" then
                numKey value 8 r1 (fun v =>
                  keyLoop n' (InspectedJob.set_State j v) r1)
              else if String.eqb key "created" then
                match time_Parse_RFC3339 value with
                | None => (Err ErrMalformed, r1)
                | Some created =>
                    keyLoop n' (InspectedJob.set_Created j created) r1
                end
              else (Err ErrMalformed, r1)
          | _ => (Err ErrMalformed, r1)
          end
      end
  end.

(** [parseInspectedJob]: "<id> <key-count>", then the key loop. *)
Definition parseInspectedJob : Parser IJob := fun r =>
  match readLine r with
  | (Err _, r1) => (Err ErrMalformed, r1)
  | (Ok line, r1) =>
      match Split line with
      | [split0; split1] =>
          match idFromString split0 with
          | Err e => (Err e, r1)
          | Ok id =>
              match strconv.Atoi split1 with
              | inl _ => (Err ErrMalformed, r1)
              | inr keyCount =>
                  keyLoop (Z.to_nat keyCount)
                          (InspectedJob.set_ID InspectedJob.zero id) r1
              end
          end
      | _ => (Err ErrMalformed, r1)
      end
  end.

(** The loop of [readInspectedJobs],
    [for i := 0; i < replyCount; i++ { ... }], by recursion on
    [n = replyCount - i]. *)
Fixpoint jobsLoop (n : nat) (jobs : list IJob) (r : Reader)
  : Res (list IJob) * Reader :=
  match n with
  | O => (Ok jobs, r)
  | S n' =>
      match parseInspectedJob r with
      | (Err e, r1) => (Err e, r1)
      | (Ok job, r1) => jobsLoop n' (jobs ++ [job]) r1
      end
  end.

(** [readInspectedJobs(replyCount)]. *)
Definition readInspectedJobs (replyCount : Z) : Parser (list IJob) := fun r =>
  match jobsLoop (Z.to_nat replyCount) [] r with
  | (Err e, r1) => (Err e, r1)
  | (Ok jobs, r1) =>
      if negb (Z.of_nat (List.length jobs) =? replyCount)
      then (Err ErrMalformed, r1)
      else
        (* Check for unexpected trailing bytes *)
        let '(_, err, r2) := io.ReadAtLeast 1 r1 in
        match err with
        | None => (Err ErrMalformed, r2)
        | Some _ => (Ok jobs, r2)
        end
  end.

(** ** The client and its commands

    [wrt] collects what [conn.Write] has sent; [wfail] is the error of a
    connection whose writes fail. *)

Record Client : Type := mkClient
  { rdr : Reader; wrt : string; wfail : option string }.

(** [NewClient(conn)] over a connection that will deliver [resp]. *)
Definition NewClient (resp : string) : Client :=
  mkClient (mkReader resp "EOF") "" None.

(** [_, err := c.conn.Write(r)]. *)
Definition conn_Write (c : Client) (r : string) : option string * Client :=
  match wfail c with
  | Some e => (Some e, c)
  | None => (None, mkClient (rdr c) (wrt c ++ r) None)
  end.

(** Run a decoder function on the client's reader. *)
Definition parse {A} (c : Client) (p : Parser A) : Res A * Client :=
  let '(res, r1) := p (rdr c) in (res, mkClient r1 (wrt c) (wfail c)).

(** Write the command, then decode its response with [p]. *)
Definition roundTrip {A} (c : Client) (r : string) (p : Parser A)
  : Res A * Client :=
  match conn_Write c r with
  | (Some e, c1) => (Err (NetError e), c1)
  | (None, c1) => parse c1 p
  end.

(** The optional flags of [Add], in the order they are appended. *)
Definition Add_flags (j : BgJob.t) : list string :=
  (if negb (BgJob.Priority j =? 0)
   then ["-priority=" ++ strconv.Itoa (BgJob.Priority j)] else [])
  ++ (if negb (BgJob.MaxAttempts j =? 0)
      then ["-max-attempts=" ++ strconv.Itoa (BgJob.MaxAttempts j)] else [])
  ++ (if negb (BgJob.MaxFails j =? 0)
      then ["-max-fails=" ++ strconv.Itoa (BgJob.MaxFails j)] else []).

(** The bytes [Add] writes. *)
Definition Add_request (j : BgJob.t) : string :=
  let flags := Add_flags j in
  let flagsPad := if (Z.of_nat (List.length flags) >? 0) then " " else "" in
  "add " ++ BgJob.ID j ++ " " ++ BgJob.Name j ++ " "
    ++ strconv.Itoa (BgJob.TTR j) ++ " " ++ strconv.Itoa (BgJob.TTL j) ++ " "
    ++ strconv.Itoa (len (BgJob.Payload j))
    ++ (flagsPad ++ Join flags " ")
    ++ crnl ++ BgJob.Payload j ++ crnl.

(** [Add]. *)
Definition Add (c : Client) (j : BgJob.t) : Res unit * Client :=
  roundTrip c (Add_request j) parseOk.

(** The one record of [Run], [Result] and [Lease]: the reply count must
    be 1. *)
Definition oneRecord {A} (p : Parser A) : Parser A :=
  count <- parseOkWithReply ;;
  if negb (count =? 1) then raise ErrMalformed else p.

(** The bytes [Run] writes. *)
Definition Run_request (j : FgJob.t) : string :=
  let flags := if negb (FgJob.Priority j =? 0)
               then " -priority=" ++ strconv.Itoa (FgJob.Priority j) else "" in
  "run " ++ FgJob.ID j ++ " " ++ FgJob.Name j ++ " "
    ++ strconv.Itoa (FgJob.TTR j) ++ " " ++ strconv.Itoa (FgJob.Timeout j)
    ++ " " ++ strconv.Itoa (len (FgJob.Payload j)) ++ flags
    ++ crnl ++ FgJob.Payload j ++ crnl.

(** [Run]. *)
Definition Run (c : Client) (j : FgJob.t) : Res JobResult.t * Client :=
  roundTrip c (Run_request j) (oneRecord readResult).

(** [Result]. *)
Definition Result (c : Client) (id : string) (timeout : Z)
  : Res JobResult.t * Client :=
  roundTrip c ("result " ++ id ++ " " ++ strconv.Itoa timeout ++ crnl)
            (oneRecord readResult).

(** [Lease]. *)
Definition Lease (c : Client) (names : list string) (timeout : Z)
  : Res LeasedJob.t * Client :=
  roundTrip c ("lease " ++ Join names " " ++ " " ++ strconv.Itoa timeout
               ++ crnl)
            (oneRecord readLeasedJob).

(** [InspectJobs]. *)
Definition InspectJobs (c : Client) (name : string) (cursorOffset limit : Z)
  : Res (list IJob) * Client :=
  roundTrip c ("inspect jobs " ++ name ++ " " ++ strconv.Itoa cursorOffset
               ++ " " ++ strconv.Itoa limit ++ crnl)
            (count <- parseOkWithReply ;; readInspectedJobs count).

End Decoder.

Arguments keyLoop {B Time}.
Arguments parseInspectedJob {B} uuid_FromString {Time}.
Arguments jobsLoop {B} uuid_FromString {Time}.
Arguments readInspectedJobs {B} uuid_FromString {Time}.
Arguments InspectJobs {B} uuid_FromString {Time}.

(** ** The other commands

    [Schedule], [Complete], [Fail] and [Delete] answer with a plain
    acknowledgement. *)

Module ScheduledJob.
Record t : Type := mk
  { ID : string; Name : string; TTR : Z; TTL : Z; Payload : string;
    Time : string; Priority : Z; MaxAttempts : Z; MaxFails : Z }.
End ScheduledJob.

(** The optional flags of [Schedule], in the order they are appended. *)
Definition Schedule_flags (j : ScheduledJob.t) : list string :=
  (if negb (ScheduledJob.Priority j =? 0)
   then ["-priority=" ++ strconv.Itoa (ScheduledJob.Priority j)] else [])
  ++ (if negb (ScheduledJob.MaxAttempts j =? 0)
      then ["-max-attempts=" ++ strconv.Itoa (ScheduledJob.MaxAttempts j)]
      else [])
  ++ (if negb (ScheduledJob.MaxFails j =? 0)
      then ["-max-fails=" ++ strconv.Itoa (ScheduledJob.MaxFails j)]
      else []).

(** The bytes [Schedule] writes. *)
Definition Schedule_request (j : ScheduledJob.t) : string :=
  let flags := Schedule_flags j in
  let flagsPad := if (Z.of_nat (List.length flags) >? 0) then " " else "" in
  "schedule " ++ ScheduledJob.ID j ++ " " ++ ScheduledJob.Name j ++ " "
    ++ strconv.Itoa (ScheduledJob.TTR j) ++ " "
    ++ strconv.Itoa (ScheduledJob.TTL j) ++ " "
    ++ ScheduledJob.Time j ++ " "
    ++ strconv.Itoa (len (ScheduledJob.Payload j))
    ++ (flagsPad ++ Join flags " ")
    ++ crnl ++ ScheduledJob.Payload j ++ crnl.

(** [Schedule]. *)
Definition Schedule (c : Client) (j : ScheduledJob.t) : Res unit * Client :=
  roundTrip c (Schedule_request j) parseOk.

(** The bytes [Complete] and [Fail] write, [verb] being "complete" or
    "fail". *)
Definition result_request (verb id result : string) : string :=
  verb ++ " " ++ id ++ " " ++ strconv.Itoa (len result) ++ crnl
    ++ result ++ crnl.

(** [Complete]. *)
Definition Complete (c : Client) (id result : string) : Res unit * Client :=
  roundTrip c (result_request "complete" id result) parseOk.

(** [Fail]. *)
Definition Fail (c : Client) (id result : string) : Res unit * Client :=
  roundTrip c (result_request "fail" id result) parseOk.

(** [Delete]. *)
Definition Delete (c : Client) (id : string) : Res unit * Client :=
  roundTrip c ("delete " ++ id ++ crnl) parseOk.

(** [(e *NetError) Error()], of [error.go]. *)
Definition NetError_Error (text : string) : string := "Net Error: " ++ text.

(** ** The buffering of a short response

    The transport of the repository's tests: the response is shorter than
    the buffer and arrives in one piece, so that every pending byte is in
    the buffer.  The concrete runs below are made with it. *)

#[export] Instance whole_response : Buffering :=
  fun r => String.length (pending r).

(** The buffering of a longer response, for as long as the buffer has
    not been filled a second time: a new [bufio.Reader] over a connection
    that holds [total] bytes takes 4096 of them with its first read, so
    that at a state with [p] bytes pending, [total - p] of the 4096 have
    been consumed. *)
Definition first_fill (total : nat) : Buffering :=
  fun r => (4096 - (total - String.length (pending r)))%nat.

(** [n] times the byte [c]. *)
Fixpoint replicate (n : nat) (c : ascii) : string :=
  match n with
  | O => EmptyString
  | S n' => String c (replicate n' c)
  end.

(** ** Instances for the two open functions *)

Definition isHex (c : ascii) : bool :=
  let n := nat_of_ascii c in
  ((48 <=? n) && (n <=? 57) || (97 <=? n) && (n <=? 102)
   || (65 <=? n) && (n <=? 70))%nat.

Definition isDigit (c : ascii) : bool :=
  let n := nat_of_ascii c in ((48 <=? n) && (n <=? 57))%nat.

(** Does [s] follow [shape]?  In a shape, [x] stands for a hexadecimal
    digit, [d] for a decimal digit, any other byte for itself. *)
Fixpoint hasShape (shape s : string) : bool :=
  match shape, s with
  | EmptyString, EmptyString => true
  | String p shape', String c s' =>
      (if Ascii.eqb p "x" then isHex c
       else if Ascii.eqb p "d" then isDigit c
       else Ascii.eqb p c)
      && hasShape shape' s'
  | _, _ => false
  end.

(** Modelled from the spec: [uuid.FromString] is not part of this
    repository; the spec asks for "a syntactically valid UUID (36-char
    canonical form)", that is 8-4-4-4-12 hexadecimal digits. *)
Definition canonical_uuid (s : string) : bool :=
  hasShape "xxxxxxxx-xxxx-xxxx-xxxx-xxxxxxxxxxxx" s.

(** Modelled from the spec: [time.Parse] is not part of this repository;
    the spec asks for a "UTC timestamp in a fixed textual format", the
    [TimeFormat] "2006-01-02T15:04:05Z".  The parsed time is kept as its
    text. *)
Definition utc_timestamp (s : string) : option string :=
  if hasShape "dddd-dd-ddTdd:dd:ddZ" s then Some s else None.

(** ** The spec's grammars, written from its words *)

(** The alphabet of a job name, [A-Za-z0-9_.-]. *)
Definition nameAlphabet : string :=
  "ABCDEFGHIJKLMNOPQRSTUVWXYZabcdefghijklmnopqrstuvwxyz0123456789_.-".

Fixpoint inString (c : ascii) (s : string) : bool :=
  match s with
  | EmptyString => false
  | String c' s' => Ascii.eqb c c' || inString c s'
  end.

Fixpoint allIn (alphabet s : string) : bool :=
  match s with
  | EmptyString => true
  | String c s' => inString c alphabet && allIn alphabet s'
  end.

(** The name grammar [A-Za-z0-9_.-]{1,128}. *)
Definition spec_name (s : string) : bool :=
  (1 <=? String.length s)%nat && (String.length s <=? 128)%nat
  && allIn nameAlphabet s.

(** The optional flags as the spec words them: priority, max-attempts,
    max-fails in this order, each left out when zero, each one that is
    present preceded by one space. *)
Definition spec_flag (name : string) (v : Z) : string :=
  if v =? 0 then "" else " -" ++ name ++ "=" ++ strconv.Itoa v.

Definition spec_Add_flags (j : BgJob.t) : string :=
  spec_flag "priority" (BgJob.Priority j)
  ++ spec_flag "max-attempts" (BgJob.MaxAttempts j)
  ++ spec_flag "max-fails" (BgJob.MaxFails j).

(** A token: no space inside. *)
Fixpoint noSpace (s : string) : bool :=
  match s with
  | EmptyString => true
  | String c s' => negb (Ascii.eqb c SP) && noSpace s'
  end.

(** A line: no line feed inside. *)
Fixpoint noLF (s : string) : bool :=
  match s with
  | EmptyString => true
  | String c s' => negb (Ascii.eqb c LF) && noLF s'
  end.

(** [e] is the transport error type. *)
Definition isNetError (e : error) : bool :=
  match e with NetError _ => true | _ => false end.

(** ** The fields of a command line

    The space-separated fields a server finds on the line [Add] writes:
    the verb, the five mandatory fields, then the flags. *)

Definition Add_fields (j : BgJob.t) : list string :=
  ["add"; BgJob.ID j; BgJob.Name j; strconv.Itoa (BgJob.TTR j);
   strconv.Itoa (BgJob.TTL j); strconv.Itoa (len (BgJob.Payload j))]
  ++ Add_flags j.

(** ** The keys of an inspected job

    The cases of the switch in [parseInspectedJob], [payload] among
    them, and those of them that are parsed as 8-bit counters. *)

Definition inspectKeys : list string :=
  ["name"; "ttr"; "ttl"; "payload"; "payload-size"; "max-attempts";
   "attempts"; "max-fails"; "fails"; "priority"; "state"; "created"].

Definition counterKeys : list string :=
  ["max-attempts"; "attempts"; "max-fails"; "fails"; "state"].

(** ** Ranges of the fields of an inspected job

    The widths the decoder parses the values with: [ttr] 32 bits
    unsigned, [ttl] 64 bits unsigned and then converted to [int],
    [priority] 32 bits signed, the counters and the state 8 bits
    unsigned, and a payload no longer than [maxDataBlock]. *)

Definition fieldsInRange {Time} (j : InspectedJob.t Time) : Prop :=
  let b := InspectedJob.Bg j in
  0 <= BgJob.TTR b < 2 ^ 32
  /\ - 2 ^ 63 <= BgJob.TTL b < 2 ^ 63
  /\ len (BgJob.Payload b) <= maxDataBlock
  /\ - 2 ^ 31 <= BgJob.Priority b < 2 ^ 31
  /\ 0 <= BgJob.MaxAttempts b < 256
  /\ 0 <= BgJob.MaxFails b < 256
  /\ 0 <= InspectedJob.Attempts j < 256
  /\ 0 <= InspectedJob.Fails j < 256
  /\ 0 <= InspectedJob.State j < 256.

(** ** Decimal numerals

    The number a decimal numeral of the standard library denotes when it
    is read digit by digit from the left, starting from [acc]. *)

Fixpoint decimal_value (d : Decimal.uint) (acc : Z) : Z :=
  match d with
  | Nil => acc
  | D0 d' => decimal_value d' (acc * 10 + 0)
  | D1 d' => decimal_value d' (acc * 10 + 1)
  | D2 d' => decimal_value d' (acc * 10 + 2)
  | D3 d' => decimal_value d' (acc * 10 + 3)
  | D4 d' => decimal_value d' (acc * 10 + 4)
  | D5 d' => decimal_value d' (acc * 10 + 5)
  | D6 d' => decimal_value d' (acc * 10 + 6)
  | D7 d' => decimal_value d' (acc * 10 + 7)
  | D8 d' => decimal_value d' (acc * 10 + 8)
  | D9 d' => decimal_value d' (acc * 10 + 9)
  end.

(** The last byte of [s], if any. *)
Fixpoint last (s : string) : option ascii :=
  match s with
  | EmptyString => None
  | String c EmptyString => Some c
  | String _ s' => last s'
  end.

(** ** Test data

    The job id the repository's tests use, and a stream given line by
    line, each line followed by "\r\n". *)

Definition testID : string := "6ba7b810-9dad-11d1-80b4-00c04fd430c4".

Fixpoint lines (l : list string) : string :=
  match l with
  | [] => ""
  | x :: rest => x ++ crnl ++ lines rest
  end.

(** The reader of a connection that delivers [resp] and is then closed. *)
Definition stream (resp : string) : Reader := mkReader resp "EOF".

(** * Properties *)

(** ** Strings *)

Lemma length_take n s : String.length (take n s) = Nat.min n (String.length s).
Proof.
  revert s; induction n as [|n IH]; intros [|c s]; simpl; auto.
Qed.

Lemma length_drop n s : String.length (drop n s) = (String.length s - n)%nat.
Proof.
  revert s; induction n as [|n IH]; intros [|c s]; simpl; auto.
Qed.

Lemma take_drop n s : take n s ++ drop n s = s.
Proof.
  revert s; induction n as [|n IH]; intros [|c s]; simpl; auto.
  now rewrite IH.
Qed.

Lemma take_app s t : take (String.length s) (s ++ t) = s.
Proof. induction s as [|c s IH]; simpl; [now destruct t | now rewrite IH]. Qed.

Lemma drop_app s t : drop (String.length s) (s ++ t) = t.
Proof. induction s as [|c s IH]; simpl; auto. Qed.

Lemma length_app s t :
  String.length (s ++ t) = (String.length s + String.length t)%nat.
Proof. induction s as [|c s IH]; simpl; auto. Qed.

Lemma app_assoc (s t u : string) : (s ++ t) ++ u = s ++ t ++ u.
Proof. induction s as [|c s IH]; simpl; [|rewrite IH]; reflexivity. Qed.

Lemma app_empty_r (s : string) : s ++ "" = s.
Proof. induction s as [|c s IH]; simpl; [|rewrite IH]; reflexivity. Qed.

(** ** [readBlock] *)

(** C7: a declared block length below 0 or above 1048576 fails with
    [ErrMalformed], and the reader is the one that was passed in: not one
    byte of the block has been taken from the stream. *)
Theorem readBlock_rejects_length_out_of_range
    {B : Buffering} (size : Z) (r : Reader) :
  size < 0 \/ size > 1048576 ->
  readBlock size r = (Err ErrMalformed, r).
Proof.
  intros H. unfold readBlock, maxDataBlock.
  destruct (size <? 0) eqn:E1; [reflexivity|].
  destruct (size >? 1048576) eqn:E2; [reflexivity|].
  apply Z.ltb_ge in E1. rewrite Z.gtb_ltb in E2. apply Z.ltb_ge in E2. lia.
Qed.

Lemma readBlock_rejects_length_out_of_range_witness :
  readBlock 1048577 (mkReader ("a" ++ crnl) "EOF")
    = (Err ErrMalformed, mkReader ("a" ++ crnl) "EOF")
  /\ readBlock (-1) (mkReader ("a" ++ crnl) "EOF")
    = (Err ErrMalformed, mkReader ("a" ++ crnl) "EOF").
Proof.
  split; apply readBlock_rejects_length_out_of_range; [right | left]; lia.
Defined.

(** A [Read] of [n] bytes that the buffer holds hands over all [n]. *)
Lemma Read_buffered {B : Buffering} (n : nat) (s f : string) :
  (1 <= n)%nat -> (n <= String.length s)%nat ->
  (n <= buffered (mkReader s f))%nat ->
  bufio.Read n (mkReader s f) = (take n s, None, mkReader (drop n s) f).
Proof.
  intros H1 H2 H3. unfold bufio.Read. cbn [pending fail].
  destruct s as [|c s]; [cbn in H2; lia|].
  cbv zeta. now replace (Nat.min n (Nat.max 1 (buffered (mkReader (String c s) f))))
    with n by lia.
Qed.

(** What a [Read] hands over is a prefix of the pending bytes, and the
    reader stands after it. *)
Lemma Read_prefix {B : Buffering} (n : nat) (r r2 : Reader) (b : string) :
  bufio.Read n r = (b, None, r2) ->
  pending r = b ++ pending r2 /\ fail r2 = fail r
  /\ (String.length b <= n)%nat.
Proof.
  unfold bufio.Read. destruct (pending r) as [|c s] eqn:E; [discriminate|].
  cbv zeta. intros [= <- <-]. cbn [pending fail].
  rewrite take_drop, length_take. repeat split. lia.
Qed.

(** A length within the bounds goes on to the read: a block of that many
    bytes followed by the terminator is returned, whatever its bytes,
    when the two bytes of the terminator are in the buffer. *)
Lemma readBlock_in_range {B : Buffering} (block rest f : string) :
  len block <= 1048576 ->
  (2 <= buffered (mkReader (crnl ++ rest) f))%nat ->
  readBlock (len block) (mkReader (block ++ crnl ++ rest) f)
    = (Ok block, mkReader rest f).
Proof.
  intros H Hb. unfold readBlock, maxDataBlock, len in *.
  destruct (Z.of_nat (String.length block) <? 0) eqn:E1;
    [apply Z.ltb_lt in E1; lia|].
  destruct (Z.of_nat (String.length block) >? 1048576) eqn:E2;
    [rewrite Z.gtb_ltb in E2; apply Z.ltb_lt in E2; lia|].
  cbn [orb]. rewrite Nat2Z.id. unfold io.ReadAtLeast. cbn [pending fail].
  rewrite length_app.
  destruct (Nat.leb_spec (String.length block)
              (String.length block + String.length (crnl ++ rest))); [|lia].
  rewrite take_app, drop_app, Z.eqb_refl. cbn [negb orb isSome].
  change (Z.to_nat termLen) with 2%nat.
  rewrite Read_buffered by (cbn [crnl append String.length]; lia || exact Hb).
  reflexivity.
Qed.

(** Whatever makes [readBlock] fail, the error is [ErrMalformed]. *)
Lemma readBlock_error_is_malformed
    {B : Buffering} (size : Z) (r : Reader) (e : error) :
  fst (readBlock size r) = Err e -> e = ErrMalformed.
Proof.
  unfold readBlock.
  destruct ((size <? 0) || (size >? maxDataBlock)); cbn [fst];
    [congruence|].
  destruct (io.ReadAtLeast (Z.to_nat size) r) as [[block err] r1].
  destruct (negb (len block =? size) || isSome err); cbn [fst];
    [congruence|].
  destruct (bufio.Read (Z.to_nat termLen) r1) as [[b err2] r2].
  destruct (isSome err2 || negb (len b =? termLen) || negb (b =? crnl)%string);
    cbn [fst]; congruence.
Qed.

(** A block of [size] bytes needs [size + 2] bytes on the stream. *)
Lemma readBlock_short_stream {B : Buffering} (size : Z) (r : Reader) :
  0 <= size ->
  Z.of_nat (String.length (pending r)) < size + termLen ->
  fst (readBlock size r) = Err ErrMalformed.
Proof.
  intros Hs Hshort. unfold readBlock, termLen in *.
  destruct ((size <? 0) || (size >? maxDataBlock)); [reflexivity|].
  unfold io.ReadAtLeast.
  destruct (Nat.leb_spec (Z.to_nat size) (String.length (pending r)))
    as [Hle|Hlt].
  - unfold len. rewrite length_take, Nat.min_l by exact Hle.
    rewrite Z2Nat.id, Z.eqb_refl by exact Hs. cbn [negb orb isSome].
    destruct (bufio.Read (Z.to_nat 2)
                (mkReader (drop (Z.to_nat size) (pending r)) (fail r)))
      as [[b [err2|]] r2] eqn:E; [reflexivity|].
    apply Read_prefix in E. cbn [pending fail] in E.
    destruct E as (E & _ & _).
    assert (Hl : (String.length b < 2)%nat).
    { apply (f_equal String.length) in E.
      rewrite length_drop, length_app in E. lia. }
    cbn [isSome orb]. unfold len.
    destruct (Z.eqb_spec (Z.of_nat (String.length b)) 2); [lia|].
    reflexivity.
  - cbn [isSome]. rewrite orb_true_r. reflexivity.
Qed.

(** ** [readLine] *)

(** A stream that ends before the line feed: the transport's error. *)
Lemma readLine_transport_failure (r : Reader) :
  bufio.cut LF (pending r) = None ->
  readLine r = (Err (NetError (fail r)), mkReader "" (fail r)).
Proof.
  intros H. unfold readLine, bufio.ReadBytes. now rewrite H.
Qed.

(** [readLine] reports a transport error only when the read failed. *)
Lemma readLine_NetError_inv (r : Reader) (t : string) :
  fst (readLine r) = Err (NetError t) ->
  bufio.cut LF (pending r) = None /\ t = fail r.
Proof.
  unfold readLine, bufio.ReadBytes.
  destruct (bufio.cut LF (pending r)) as [[l rest]|]; cbn.
  - destruct (len l <? termLen); cbn; [discriminate|].
    destruct (String.get (String.length l - 2) l) as [c|]; cbn;
      [|discriminate].
    destruct (negb (Ascii.eqb c CR)); cbn; discriminate.
  - intros H; injection H as <-. auto.
Qed.

(** C4, as the code has it: when the stream ends before a line is
    complete, [readLine] fails with the transport error [NetError] that
    carries the transport's message, and it reports [NetError] in no other
    case; [readBlock] reports a stream that ends before the block and its
    terminator are complete as [ErrMalformed], and never reports
    [NetError]. *)
Theorem read_failure_classification {B : Buffering} (r : Reader) :
  (bufio.cut LF (pending r) = None ->
   fst (readLine r) = Err (NetError (fail r)))
  /\ (forall t, fst (readLine r) = Err (NetError t) ->
      bufio.cut LF (pending r) = None)
  /\ (forall size, 0 <= size <= 1048576 ->
      Z.of_nat (String.length (pending r)) < size + 2 ->
      fst (readBlock size r) = Err ErrMalformed)
  /\ (forall size e, fst (readBlock size r) = Err e -> isNetError e = false).
Proof.
  repeat split.
  - intros H. now rewrite readLine_transport_failure.
  - intros t H. now apply readLine_NetError_inv in H.
  - intros size [H0 _] H. now apply readBlock_short_stream.
  - intros size e H. apply readBlock_error_is_malformed in H. now subst.
Qed.

Lemma read_failure_classification_witness :
  fst (readLine (mkReader "-NOT-FOUND" "EOF")) = Err (NetError "EOF")
  /\ fst (readBlock 10 (mkReader crnl "EOF")) = Err ErrMalformed.
Proof.
  destruct (read_failure_classification (mkReader "-NOT-FOUND" "EOF"))
    as [H1 _].
  destruct (read_failure_classification (mkReader crnl "EOF"))
    as (_ & _ & H3 & _).
  split; [apply H1; reflexivity | apply H3; cbn; lia].
Defined.

(** C4 as claimed fails for the read-block primitive: on a stream the
    peer closed before any data, the read inside [readBlock] fails with
    the transport's "EOF", and [readBlock] returns [ErrMalformed], not
    the transport error. *)
Lemma readBlock_transport_failure_is_malformed :
  snd (fst (io.ReadAtLeast 1 (mkReader "" "EOF"))) = Some "EOF"
  /\ fst (readBlock 1 (mkReader "" "EOF")) = Err ErrMalformed
  /\ fst (readBlock 1 (mkReader "" "EOF")) <> Err (NetError "EOF").
Proof. repeat split; discriminate. Qed.

(** ** Error lines *)

Lemma SplitN2_token (code : string) :
  noSpace code = true -> SplitN2 code = [code].
Proof.
  induction code as [|c code IH]; cbn; [reflexivity|].
  destruct (Ascii.eqb c SP); cbn; [discriminate|].
  intros H. now rewrite IH.
Qed.

Lemma SplitN2_token_text (code text : string) :
  noSpace code = true -> SplitN2 (code ++ String SP text) = [code; text].
Proof.
  induction code as [|c code IH]; cbn; [reflexivity|].
  destruct (Ascii.eqb c SP); cbn; [discriminate|].
  intros H. now rewrite IH.
Qed.

Lemma len_le_1_String (c : ascii) (s : string) :
  (len (String c s) <=? 1) = (s =? "")%string.
Proof.
  unfold len. destruct s; cbn [String.length String.eqb].
  - reflexivity.
  - apply Z.leb_gt. lia.
Qed.

Lemma len_eqb_0 (s : string) : (len s =? 0) = (s =? "")%string.
Proof. destruct s; reflexivity. Qed.

(** An error line is the sign byte, a code token and, optionally, a
    space and a text.  [errorFromLine] answers [ErrMalformed] when the
    code is empty, [ErrMalformed] when there is a space and the text
    after it is empty, and otherwise the server's error with the code
    and the text as they were sent. *)
Lemma errorFromLine_tokens (code : string) (text : option string) :
  noSpace code = true ->
  errorFromLine ("-" ++ code
                 ++ match text with Some t => " " ++ t | None => "" end)
    = (if (code =? "")%string then (ErrMalformed, false)
       else match text with
            | Some "" => (ErrMalformed, false)
            | Some t => (ResponseError code t, true)
            | None => (ResponseError code "", true)
            end).
Proof.
  intros Hc.
  assert (Hs : noSpace (String "-" code) = true) by exact Hc.
  unfold errorFromLine. destruct text as [t|].
  - change ("-" ++ code ++ " " ++ t) with (String "-" code ++ String SP t).
    rewrite (SplitN2_token_text _ t Hs). cbn [hd drop].
    rewrite len_le_1_String, len_eqb_0.
    destruct (code =? "")%string; [reflexivity|].
    destruct t; reflexivity.
  - rewrite app_empty_r. change ("-" ++ code) with (String "-" code).
    rewrite (SplitN2_token _ Hs). cbn [hd drop].
    rewrite len_le_1_String. reflexivity.
Qed.

(** ** [Add] *)

(** The pad and the joined flags of [Add] are the spec's flag suffix. *)
Lemma Add_flags_suffix (j : BgJob.t) :
  (if Z.of_nat (List.length (Add_flags j)) >? 0 then " " else "")
    ++ Join (Add_flags j) " "
  = spec_Add_flags j.
Proof.
  unfold Add_flags, spec_Add_flags, spec_flag.
  destruct (BgJob.Priority j =? 0), (BgJob.MaxAttempts j =? 0),
    (BgJob.MaxFails j =? 0); cbn; rewrite ?app_assoc, ?app_empty_r;
    reflexivity.
Qed.

(** C8: the scenario of the spec, and the general form of the bytes [Add]
    writes: the mandatory fields, then the flag suffix as the spec words
    it (priority, max-attempts, max-fails, each left out when zero, one
    space before each flag that is there, nothing when there is none);
    and on the success marker [Add] returns no error. *)
Theorem Add_wire_format :
  Add (NewClient ("+OK" ++ crnl))
      (BgJob.mk "6ba7b810-9dad-11d1-80b4-00c04fd430c4" "j1" 60 60000 "a"
                0 0 0)
    = (Ok tt,
       mkClient (mkReader "" "EOF")
         ("add 6ba7b810-9dad-11d1-80b4-00c04fd430c4 j1 60 60000 1" ++ crnl
          ++ "a" ++ crnl)
         None)
  /\ (forall j : BgJob.t,
        Add_request j
        = "add " ++ BgJob.ID j ++ " " ++ BgJob.Name j ++ " "
          ++ strconv.Itoa (BgJob.TTR j) ++ " " ++ strconv.Itoa (BgJob.TTL j)
          ++ " " ++ strconv.Itoa (len (BgJob.Payload j))
          ++ spec_Add_flags j ++ crnl ++ BgJob.Payload j ++ crnl)
  /\ (forall j : BgJob.t,
        Add (NewClient ("+OK" ++ crnl)) j
        = (Ok tt, mkClient (mkReader "" "EOF") (Add_request j) None)).
Proof.
  split; [reflexivity|]. split.
  - intros j. unfold Add_request. cbv zeta. now rewrite Add_flags_suffix.
  - intros j. reflexivity.
Qed.

(** ** Names *)

Lemma nameChar_alphabet (c : ascii) : nameChar c = inString c nameAlphabet.
Proof.
  destruct c as [[] [] [] [] [] [] [] []]; vm_compute; reflexivity.
Qed.

Lemma nameRe_alphabet (s : string) :
  nameRe_MatchString s = allIn nameAlphabet s.
Proof.
  induction s as [|c s IH]; [reflexivity|].
  cbn [nameRe_MatchString allIn]. now rewrite nameChar_alphabet, IH.
Qed.

(** [nameFromString] accepts exactly the names of the spec's grammar. *)
Lemma nameFromString_spec (name : string) :
  nameFromString name
  = if spec_name name then Ok name else Err ErrMalformed.
Proof.
  unfold nameFromString, spec_name, len. rewrite nameRe_alphabet.
  replace (Z.of_nat (String.length name) >? 0)
    with (1 <=? String.length name)%nat.
  2:{ rewrite Z.gtb_ltb.
      destruct (Nat.leb_spec 1 (String.length name));
        [symmetry; apply Z.ltb_lt | symmetry; apply Z.ltb_ge]; lia. }
  replace (Z.of_nat (String.length name) <=? 128)
    with (String.length name <=? 128)%nat.
  2:{ destruct (Nat.leb_spec (String.length name) 128);
        [symmetry; apply Z.leb_le | symmetry; apply Z.leb_gt]; lia. }
  reflexivity.
Qed.

(** ** Lines and tokens on the stream *)

Lemma cut_line (l rest : string) :
  noLF l = true ->
  bufio.cut LF (l ++ crnl ++ rest) = Some (l ++ crnl, rest).
Proof.
  induction l as [|c l IH]; [reflexivity|].
  cbn [append bufio.cut noLF].
  destruct (Ascii.eqb c LF); cbn [negb andb]; [discriminate|].
  intros H. now rewrite (IH H).
Qed.

Lemma get_app_length (l : string) (c : ascii) (t : string) :
  String.get (String.length l) (l ++ String c t) = Some c.
Proof. induction l as [|a l IH]; cbn; auto. Qed.

(** A line on the stream is read back without its terminator, and the
    reader stands right after it. *)
Lemma readLine_line (l rest f : string) :
  noLF l = true ->
  readLine (mkReader (l ++ crnl ++ rest) f) = (Ok l, mkReader rest f).
Proof.
  intros H. unfold readLine, bufio.ReadBytes. cbn [pending fail].
  rewrite (cut_line l rest H).
  assert (Hlen : String.length (l ++ crnl) = (String.length l + 2)%nat)
    by (rewrite length_app; reflexivity).
  unfold len, termLen. rewrite Hlen.
  destruct (Z.of_nat (String.length l + 2) <? 2) eqn:E;
    [apply Z.ltb_lt in E; lia|].
  replace (String.length l + 2 - 2)%nat with (String.length l) by lia.
  unfold crnl at 1 2. rewrite get_app_length. cbn [Ascii.eqb negb].
  rewrite Ascii.eqb_refl. cbn [negb]. now rewrite take_app.
Qed.

Lemma Split_token (s : string) : noSpace s = true -> Split s = [s].
Proof.
  induction s as [|c s IH]; cbn; [reflexivity|].
  destruct (Ascii.eqb c SP); cbn; [discriminate|].
  intros H. now rewrite (IH H).
Qed.

Lemma Split_cons (s t : string) :
  noSpace s = true -> Split (s ++ String SP t) = s :: Split t.
Proof.
  induction s as [|c s IH]; cbn; [reflexivity|].
  destruct (Ascii.eqb c SP); cbn; [discriminate|].
  intros H. now rewrite (IH H).
Qed.



Lemma noLF_app (s t : string) : noLF (s ++ t) = noLF s && noLF t.
Proof.
  induction s as [|c s IH]; cbn; [reflexivity|].
  now rewrite IH, andb_assoc.
Qed.

(** ** Error lines on the decode path *)

(** C9, as the code has it: an error line, "-" and a code and, optionally,
    a space and a text, read as an acknowledgement.  A line of fewer than
    3 bytes read by [parseOk], or of fewer than 5 bytes read by
    [parseOkWithReply], is [ErrMalformed] before anything else is looked
    at; of the lines that are long enough, one with an empty code is
    [ErrMalformed], one with a space and an empty text after it is
    [ErrMalformed], and every other one is the server's error with the
    code and the text as they were sent.  "-TIMED-OUT" read as an
    acknowledgement, with or without reply count, is the server's error
    with code TIMED-OUT and no text. *)
Theorem error_line_decoded
    (code : string) (text : option string) (rest f : string) :
  noSpace code = true -> noLF code = true ->
  noLF (match text with Some t => t | None => "" end) = true ->
  let line :=
    "-" ++ code ++ match text with Some t => " " ++ t | None => "" end in
  let outcome :=
    if (code =? "")%string then ErrMalformed
    else match text with
         | Some "" => ErrMalformed
         | Some t => ResponseError code t
         | None => ResponseError code ""
         end in
  parseOk (mkReader (line ++ crnl ++ rest) f)
  = (Err (if len line <? 3 then ErrMalformed else outcome), mkReader rest f)
  /\ parseOkWithReply (mkReader (line ++ crnl ++ rest) f)
     = (Err (if len line <? 5 then ErrMalformed else outcome),
        mkReader rest f)
  /\ fst (parseOk (mkReader ("-TIMED-OUT" ++ crnl) "EOF"))
     = Err (ResponseError "TIMED-OUT" "")
  /\ fst (parseOkWithReply (mkReader ("-TIMED-OUT" ++ crnl) "EOF"))
     = Err (ResponseError "TIMED-OUT" "").
Proof.
  intros Hs Hlc Hlt line outcome.
  assert (Hl : noLF line = true).
  { unfold line. change ("-" ++ ?x) with (String "-" x).
    cbn [noLF Ascii.eqb Bool.eqb negb andb]. rewrite noLF_app, Hlc.
    destruct text as [t|]; [exact Hlt | reflexivity]. }
  assert (He : fst (errorFromLine line) = outcome).
  { unfold line, outcome. rewrite (errorFromLine_tokens code text Hs).
    destruct (code =? "")%string; [reflexivity|].
    destruct text as [[|c t]|]; reflexivity. }
  refine (conj _ (conj _ (conj eq_refl eq_refl)));
    unfold parseOk, parseOkWithReply, bind, raise;
    rewrite (readLine_line _ _ _ Hl).
  - destruct (len line <? 3); [reflexivity|].
    change (sign line) with "-". cbn [String.eqb Ascii.eqb Bool.eqb andb negb].
    now rewrite He.
  - destruct (len line <? 5); [reflexivity|].
    change (sign line) with "-". cbn [String.eqb Ascii.eqb Bool.eqb andb negb].
    now rewrite He.
Qed.

Lemma error_line_decoded_witness :
  parseOk (stream ("-CLIENT-ERROR Invalid Job ID" ++ crnl ++ "+OK" ++ crnl))
  = (Err (ResponseError "CLIENT-ERROR" "Invalid Job ID"),
     stream ("+OK" ++ crnl))
  /\ parseOkWithReply (stream ("-NOT-FOUND" ++ crnl))
     = (Err (ResponseError "NOT-FOUND" ""), stream "")
  /\ parseOk (stream ("-C " ++ crnl)) = (Err ErrMalformed, stream "")
  /\ parseOkWithReply (stream ("- some text" ++ crnl))
     = (Err ErrMalformed, stream "").
Proof.
  refine (conj _ (conj _ (conj _ _))).
  - exact (proj1 (error_line_decoded "CLIENT-ERROR" (Some "Invalid Job ID")
                    ("+OK" ++ crnl) "EOF" eq_refl eq_refl eq_refl)).
  - exact (proj1 (proj2 (error_line_decoded "NOT-FOUND" None "" "EOF"
                           eq_refl eq_refl eq_refl))).
  - exact (proj1 (error_line_decoded "C" (Some "") "" "EOF"
                    eq_refl eq_refl eq_refl)).
  - exact (proj1 (proj2 (error_line_decoded "" (Some "some text") "" "EOF"
                           eq_refl eq_refl eq_refl))).
Defined.

(** C9 as claimed fails: "-ERR" and "-E x" have a code that is not empty
    and no empty text, and [errorFromLine] makes the server's error of
    them, but read as the reply to a counted command they are shorter
    than 5 bytes and the decode answers [ErrMalformed]; so does "-E" for
    every command. *)
Lemma short_error_lines_are_not_server_errors :
  errorFromLine "-ERR" = (ResponseError "ERR" "", true)
  /\ fst (parseOkWithReply (stream ("-ERR" ++ crnl))) = Err ErrMalformed
  /\ errorFromLine "-E x" = (ResponseError "E" "x", true)
  /\ fst (parseOkWithReply (stream ("-E x" ++ crnl))) = Err ErrMalformed
  /\ errorFromLine "-E" = (ResponseError "E" "", true)
  /\ fst (parseOk (stream ("-E" ++ crnl))) = Err ErrMalformed.
Proof. repeat split. Qed.

(** ** Counted responses and their records *)

Section DecoderFacts.

Context {B : Buffering}.
Variable uuid_FromString : string -> bool.
Variable Time : Type.
Variable time_Parse_RFC3339 : string -> option Time.

#[local] Abbreviation IJob := (InspectedJob.t Time).
#[local] Abbreviation readLeasedJob' := (readLeasedJob uuid_FromString).
#[local] Abbreviation parseInspectedJob' :=
  (parseInspectedJob uuid_FromString time_Parse_RFC3339).
#[local] Abbreviation keyLoop' := (keyLoop time_Parse_RFC3339).

(** A command whose write succeeds goes on to decode the response. *)
Lemma roundTrip_write_ok {A} (c : Client) (req : string) (p : Parser A) :
  wfail c = None ->
  roundTrip c req p
  = (fst (p (rdr c)), mkClient (snd (p (rdr c))) (wrt c ++ req) None).
Proof.
  intros H. unfold roundTrip, conn_Write, parse. rewrite H. cbn [rdr wrt wfail].
  now destruct (p (rdr c)).
Qed.

Lemma oneRecord_count_not_one {A} (p : Parser A) (r r1 : Reader) (count : Z) :
  parseOkWithReply r = (Ok count, r1) -> count <> 1 ->
  oneRecord p r = (Err ErrMalformed, r1).
Proof.
  intros Hp Hc. unfold oneRecord, bind. rewrite Hp.
  destruct (Z.eqb_spec count 1); [contradiction | reflexivity].
Qed.

(** C10: in [Run], [Result] and [Lease], a reply count that parses and is
    not 1 (0, negative, or above 1) gives [ErrMalformed], and the reader
    is left where the reply-count line ended: no byte of a record has
    been read. *)
Theorem reply_count_other_than_one (c : Client) (count : Z) (r1 : Reader) :
  wfail c = None ->
  parseOkWithReply (rdr c) = (Ok count, r1) ->
  count <> 1 ->
  (forall j, Run c j
             = (Err ErrMalformed, mkClient r1 (wrt c ++ Run_request j) None))
  /\ (forall id timeout,
        Result c id timeout
        = (Err ErrMalformed,
           mkClient r1 (wrt c ++ "result " ++ id ++ " "
                        ++ strconv.Itoa timeout ++ crnl) None))
  /\ (forall names timeout,
        Lease uuid_FromString c names timeout
        = (Err ErrMalformed,
           mkClient r1 (wrt c ++ "lease " ++ Join names " " ++ " "
                        ++ strconv.Itoa timeout ++ crnl) None)).
Proof.
  intros Hw Hp Hc. repeat split; intros; unfold Run, Result, Lease;
    rewrite (roundTrip_write_ok _ _ _ Hw),
            (oneRecord_count_not_one _ _ _ _ Hp Hc); reflexivity.
Qed.

(** ** Inspected jobs *)




(** C3, as the code has it: in [InspectJobs], once the records the reply
    count announces have been decoded, a byte still to be read on the
    stream makes the call fail with [ErrMalformed]. *)
Theorem InspectJobs_rejects_trailing_bytes
    (c : Client) (name : string) (cursorOffset limit count : Z)
    (r0 r1 : Reader) (jobs : list IJob) :
  wfail c = None ->
  parseOkWithReply (rdr c) = (Ok count, r0) ->
  jobsLoop uuid_FromString time_Parse_RFC3339 (Z.to_nat count) [] r0
    = (Ok jobs, r1) ->
  pending r1 <> "" ->
  fst (InspectJobs uuid_FromString time_Parse_RFC3339 c name cursorOffset
         limit)
  = Err ErrMalformed.
Proof.
  intros Hw Hp Hj Hne. unfold InspectJobs.
  rewrite (roundTrip_write_ok _ _ _ Hw). cbn [fst].
  unfold bind. rewrite Hp. unfold readInspectedJobs. rewrite Hj.
  destruct (negb (Z.of_nat (List.length jobs) =? count)); [reflexivity|].
  unfold io.ReadAtLeast.
  destruct (pending r1) as [|b rest]; [contradiction | reflexivity].
Qed.

(** ** Leased jobs *)

Lemma readLine_unchecked_ok (r r1 : Reader) (line : string) :
  readLine r = (Ok line, r1) -> readLine_unchecked r = (line, r1).
Proof. intros H. unfold readLine_unchecked. now rewrite H. Qed.

(** An id the UUID parser rejects, or a name outside the grammar, fails
    the leased-job record; the payload block is not read. *)
Lemma readLeasedJob_invalid_id_or_name
    (r r1 : Reader) (line id name ttr size : string) :
  readLine_unchecked r = (line, r1) ->
  Split line = [id; name; ttr; size] ->
  uuid_FromString id = false \/ spec_name name = false ->
  readLeasedJob' r = (Err ErrMalformed, r1).
Proof.
  intros Hl Hs H. unfold readLeasedJob, idFromString. rewrite Hl, Hs.
  rewrite nameFromString_spec.
  destruct (uuid_FromString id); [|reflexivity].
  destruct (spec_name name); [|reflexivity].
  destruct H; discriminate.
Qed.

(** C1, as the code has it: the id and the name of a leased job and the
    id of an inspected job are validated where they arrive.  An id the
    UUID parser rejects, or a name outside [A-Za-z0-9_.-]{1,128}, fails
    the record with [ErrMalformed] though the line has the right number
    of fields. *)
Theorem id_and_name_validated (r r1 : Reader) (line : string) :
  readLine r = (Ok line, r1) ->
  (forall id name ttr size,
      Split line = [id; name; ttr; size] ->
      uuid_FromString id = false \/ spec_name name = false ->
      readLeasedJob' r = (Err ErrMalformed, r1))
  /\ (forall id keyCount,
        Split line = [id; keyCount] ->
        uuid_FromString id = false ->
        parseInspectedJob' r = (Err ErrMalformed, r1)).
Proof.
  intros Hl. split.
  - intros id name ttr size Hs H.
    exact (readLeasedJob_invalid_id_or_name _ _ _ _ _ _ _
             (readLine_unchecked_ok _ _ _ Hl) Hs H).
  - intros id keyCount Hs H. unfold parseInspectedJob, idFromString.
    now rewrite Hl, Hs, H.
Qed.

End DecoderFacts.

(** ** The properties at work on concrete responses *)

Lemma reply_count_other_than_one_witness :
  Lease canonical_uuid
        (NewClient (lines ["+OK 2"; testID ++ " j1 60 1"; "a"])) ["j1"] 1000
  = (Err ErrMalformed,
     mkClient (stream (lines [testID ++ " j1 60 1"; "a"]))
              ("lease j1 1000" ++ crnl) None)
  /\ Result (NewClient (lines ["+OK 0"])) testID 1000
     = (Err ErrMalformed,
        mkClient (stream "") ("result " ++ testID ++ " 1000" ++ crnl) None)
  /\ Run (NewClient (lines ["+OK -1"; testID ++ " 1 1"; "a"]))
         (FgJob.mk testID "j1" 5000 1000 "a" 0)
     = (Err ErrMalformed,
        mkClient (stream (lines [testID ++ " 1 1"; "a"]))
                 ("run " ++ testID ++ " j1 5000 1000 1" ++ crnl ++ "a" ++ crnl)
                 None).
Proof.
  refine (conj _ (conj _ _)).
  - apply (reply_count_other_than_one canonical_uuid
             (NewClient (lines ["+OK 2"; testID ++ " j1 60 1"; "a"])) 2
             (stream (lines [testID ++ " j1 60 1"; "a"])));
      [reflexivity | reflexivity | lia].
  - apply (reply_count_other_than_one canonical_uuid
             (NewClient (lines ["+OK 0"])) 0 (stream ""));
      [reflexivity | reflexivity | lia].
  - apply (reply_count_other_than_one canonical_uuid
             (NewClient (lines ["+OK -1"; testID ++ " 1 1"; "a"])) (-1)
             (stream (lines [testID ++ " 1 1"; "a"])));
      [reflexivity | reflexivity | lia].
Defined.



(** The same through [InspectJobs]: [payload] before [payload-size]. *)
Example InspectJobs_payload_before_size :
  fst (InspectJobs canonical_uuid utc_timestamp
         (NewClient (lines ["+OK 1"; testID ++ " 3"; "name j1"; "payload a";
                            "payload-size 1"]))
         "j1" 0 10)
  = Err ErrPayloadMustFollowSize.
Proof. reflexivity. Qed.


(** With [payload-size] as the last key of the count, the record has one
    line more than its key count: key count 2 takes three lines. *)
Example payload_size_last_key :
  fst (InspectJobs canonical_uuid utc_timestamp
         (NewClient (lines ["+OK 1"; testID ++ " 2"; "name j1";
                            "payload-size 1"; "payload a"]))
         "j1" 0 10)
  = Ok [InspectedJob.set_Payload
          (InspectedJob.set_Name
             (InspectedJob.set_ID InspectedJob.zero testID) "j1") "a"].
Proof. reflexivity. Qed.


Lemma InspectJobs_rejects_trailing_bytes_witness :
  fst (InspectJobs canonical_uuid utc_timestamp
         (NewClient (lines ["+OK 1"; testID ++ " 1"; "name j1"] ++ "x"))
         "j1" 0 10)
  = Err ErrMalformed.
Proof.
  apply (InspectJobs_rejects_trailing_bytes canonical_uuid string
           utc_timestamp
           (NewClient (lines ["+OK 1"; testID ++ " 1"; "name j1"] ++ "x"))
           "j1" 0 10 1
           (stream (lines [testID ++ " 1"; "name j1"] ++ "x"))
           (stream "x")
           [InspectedJob.set_Name
              (InspectedJob.set_ID InspectedJob.zero testID) "j1"]);
    [reflexivity | reflexivity | reflexivity | discriminate].
Defined.

(** Without the trailing byte the same response is accepted. *)
Example InspectJobs_exact_framing :
  fst (InspectJobs canonical_uuid utc_timestamp
         (NewClient (lines ["+OK 1"; testID ++ " 1"; "name j1"]))
         "j1" 0 10)
  = Ok [InspectedJob.set_Name
          (InspectedJob.set_ID InspectedJob.zero testID) "j1"].
Proof. reflexivity. Qed.

(** C3 as claimed fails for [Result], [Run] and [Lease]: each returns its
    record as a success and leaves the bytes after it on the stream. *)
Lemma one_record_commands_accept_trailing_bytes :
  Result (NewClient (lines ["+OK 1"; testID ++ " 1 1"; "a"] ++ "trailing"))
         testID 1000
  = (Ok (JobResult.mk true "a"),
     mkClient (stream "trailing") ("result " ++ testID ++ " 1000" ++ crnl)
              None)
  /\ Run (NewClient (lines ["+OK 1"; testID ++ " 1 1"; "a"] ++ "trailing"))
         (FgJob.mk testID "j1" 5000 1000 "a" 0)
     = (Ok (JobResult.mk true "a"),
        mkClient (stream "trailing")
                 ("run " ++ testID ++ " j1 5000 1000 1" ++ crnl ++ "a" ++ crnl)
                 None)
  /\ Lease canonical_uuid
           (NewClient (lines ["+OK 1"; testID ++ " j1 60 1"; "a"]
                       ++ "trailing"))
           ["j1"] 1000
     = (Ok (LeasedJob.mk testID "j1" 60 "a"),
        mkClient (stream "trailing") ("lease j1 1000" ++ crnl) None).
Proof. refine (conj _ (conj _ _)); reflexivity. Qed.

Lemma id_and_name_validated_witness :
  readLeasedJob canonical_uuid (stream (lines [testID ++ " * 60 1"; "a"]))
  = (Err ErrMalformed, stream (lines ["a"]))
  /\ readLeasedJob canonical_uuid (stream (lines ["* j1 60 1"; "a"]))
     = (Err ErrMalformed, stream (lines ["a"]))
  /\ parseInspectedJob canonical_uuid utc_timestamp
       (stream (lines ["* 1"; "name j1"]))
     = (Err ErrMalformed, stream (lines ["name j1"])).
Proof.
  refine (conj _ (conj _ _)).
  - apply (proj1 (id_and_name_validated canonical_uuid string utc_timestamp
                    (stream (lines [testID ++ " * 60 1"; "a"]))
                    (stream (lines ["a"])) (testID ++ " * 60 1") eq_refl)
             testID "*" "60" "1" eq_refl).
    right; reflexivity.
  - apply (proj1 (id_and_name_validated canonical_uuid string utc_timestamp
                    (stream (lines ["* j1 60 1"; "a"]))
                    (stream (lines ["a"])) "* j1 60 1" eq_refl)
             "*" "j1" "60" "1" eq_refl).
    left; reflexivity.
  - apply (proj2 (id_and_name_validated canonical_uuid string utc_timestamp
                    (stream (lines ["* 1"; "name j1"]))
                    (stream (lines ["name j1"])) "* 1" eq_refl)
             "*" "1" eq_refl).
    reflexivity.
Defined.

(** C1 as claimed fails at two of its four places: [readResult] never
    looks at the id of a job-result record, and [parseInspectedJob]
    stores the value of the [name] key as it comes. *)
Lemma result_id_and_inspected_name_not_validated :
  canonical_uuid "not-a-uuid" = false
  /\ readResult (stream (lines ["not-a-uuid 1 1"; "a"]))
     = (Ok (JobResult.mk true "a"), stream "")
  /\ spec_name "*" = false
  /\ parseInspectedJob canonical_uuid utc_timestamp
       (stream (lines [testID ++ " 1"; "name *"]))
     = (Ok (InspectedJob.set_Name
              (InspectedJob.set_ID InspectedJob.zero testID) "*"),
        stream "").
Proof. refine (conj _ (conj _ (conj _ _))); reflexivity. Qed.

(** C2: the leased-job record of the comment above [readLeasedJob] and of
    [TestLease], the line "<id> <name> <length>" and the payload block,
    is not decoded: [readLeasedJob] asks for four fields, so [Lease]
    returns [ErrMalformed] and leaves the payload block unread, whatever
    the buffering. *)
Theorem Lease_rejects_three_field_record {B : Buffering} :
  Lease canonical_uuid
        (NewClient (lines ["+OK 1"; testID ++ " j1 1"; "a"])) ["j1"] 1000
  = (Err ErrMalformed,
     mkClient (stream (lines ["a"])) ("lease j1 1000" ++ crnl) None).
Proof. reflexivity. Qed.

(** ** Exact framing of the inspect response *)

(** [jobsLoop] adds one job for each of its [n] turns. *)
Lemma jobsLoop_length
    {B : Buffering} (uuid_FromString : string -> bool) (Time : Type)
    (time_Parse_RFC3339 : string -> option Time) (n : nat)
    (init jobs : list (InspectedJob.t Time)) (r r1 : Reader) :
  jobsLoop uuid_FromString time_Parse_RFC3339 n init r = (Ok jobs, r1) ->
  List.length jobs = (List.length init + n)%nat.
Proof.
  revert init r; induction n as [|n IH]; intros init r; cbn [jobsLoop].
  - intros H; injection H as <- _. lia.
  - destruct (parseInspectedJob uuid_FromString time_Parse_RFC3339 r)
      as [[job|e] r'].
    + intros H. apply IH in H. rewrite H, List.length_app. cbn. lia.
    + discriminate.
Qed.

(** With nothing left on the stream after the last record,
    [readInspectedJobs] returns the jobs. *)
Lemma readInspectedJobs_exact
    {B : Buffering} (uuid_FromString : string -> bool)
    (Time : Type) (time_Parse_RFC3339 : string -> option Time)
    (count : Z) (jobs : list (InspectedJob.t Time)) (r r1 : Reader) :
  0 <= count ->
  jobsLoop uuid_FromString time_Parse_RFC3339 (Z.to_nat count) [] r
    = (Ok jobs, r1) ->
  pending r1 = "" ->
  fst (readInspectedJobs uuid_FromString time_Parse_RFC3339 count r)
    = Ok jobs.
Proof.
  intros Hc Hj He. unfold readInspectedJobs. rewrite Hj.
  apply jobsLoop_length in Hj. cbn in Hj.
  replace (Z.of_nat (List.length jobs)) with count by lia.
  rewrite Z.eqb_refl. cbn [negb]. unfold io.ReadAtLeast. now rewrite He.
Qed.

(** ** The repository's tests *)

(** [TestAddOptionalFlags]: the four cases of the test table. *)
Example TestAddOptionalFlags :
  map Add_request
      [BgJob.mk testID "j1" 1 2 "" 100 0 0;
       BgJob.mk testID "j1" 1 2 "" 0 3 0;
       BgJob.mk testID "j1" 1 2 "" 0 0 3;
       BgJob.mk testID "j1" 1 2 "" 1 3 1]
  = ["add " ++ testID ++ " j1 1 2 0 -priority=100" ++ crnl ++ crnl;
     "add " ++ testID ++ " j1 1 2 0 -max-attempts=3" ++ crnl ++ crnl;
     "add " ++ testID ++ " j1 1 2 0 -max-fails=3" ++ crnl ++ crnl;
     "add " ++ testID
       ++ " j1 1 2 0 -priority=1 -max-attempts=3 -max-fails=1"
       ++ crnl ++ crnl].
Proof. reflexivity. Qed.

(** [TestAddBadConnError]: a failed write is a [NetError]. *)
Example TestAddBadConnError :
  fst (Add (mkClient (stream "") "" (Some "A bad time")) BgJob.zero)
  = Err (NetError "A bad time").
Proof. reflexivity. Qed.

(** [TestRun]. *)
Example TestRun :
  Run (NewClient (lines ["+OK 1"; testID ++ " 1 1"; "a"]))
      (FgJob.mk testID "j1" 5000 1000 "a" 0)
  = (Ok (JobResult.mk true "a"),
     mkClient (stream "")
              ("run " ++ testID ++ " j1 5000 1000 1" ++ crnl ++ "a" ++ crnl)
              None).
Proof. reflexivity. Qed.

(** [invalidCommonErrorTests], through [Result]. *)
Example invalidCommonErrorTests :
  map (fun resp => fst (Result (NewClient resp) testID 1000))
      [""; "*OK" ++ crnl; "-NOT-FOUND"; "-  " ++ crnl; "- " ++ crnl;
       "-C " ++ crnl; String LF ""; String "a" (String LF ""); crnl;
       "NOT-FOUND" ++ crnl; "NOT-FOUND"; "-NOT-FOUND" ++ crnl;
       "-TIMED-OUT" ++ crnl]
  = [Err (NetError "EOF"); Err ErrMalformed; Err (NetError "EOF");
     Err ErrMalformed; Err ErrMalformed; Err ErrMalformed; Err ErrMalformed;
     Err ErrMalformed; Err ErrMalformed; Err ErrMalformed;
     Err (NetError "EOF"); Err (ResponseError "NOT-FOUND" "");
     Err (ResponseError "TIMED-OUT" "")].
Proof. reflexivity. Qed.

(** [invalidResultErrorTests]: every one is [ErrMalformed]. *)
Example invalidResultErrorTests :
  forallb (fun resp =>
             match fst (Result (NewClient resp) testID 1000) with
             | Err ErrMalformed => true
             | _ => false
             end)
          [lines ["+OK 2"; testID ++ " 0 1"; "a"];
           lines ["+OK 1"; testID ++ " 0 1"; ""];
           lines ["+OK 1"; testID ++ " 0 10"; ""];
           lines ["+OK 1"; testID ++ " 1 1 1"; "a"];
           lines ["+OK 1"; testID ++ " 1 -1"; "a"];
           lines ["+OK 1"; testID ++ " 1 1048577"; "a"];
           lines ["+OK 1"; testID ++ " -1 1"; "a"]]
  = true.
Proof. reflexivity. Qed.

(** * Further properties of the codec *)

(** ** Decimal numerals: [Sprintf("%d")] against [strconv] *)

Lemma digits_string_of_uint (d : Decimal.uint) (acc maxVal : Z) :
  0 <= acc -> decimal_value d acc <= maxVal ->
  strconv.digits (NilEmpty.string_of_uint d) acc maxVal
  = inr (decimal_value d acc).
Proof.
  assert (mono : forall u a, 0 <= a -> a <= decimal_value u a).
  { intros u; induction u; intros a Ha; cbn [decimal_value]; try lia;
      match goal with |- _ <= decimal_value _ ?b =>
        specialize (IHu b ltac:(lia)); lia end. }
  revert acc; induction d; intros acc Ha Hv;
    cbn [NilEmpty.string_of_uint decimal_value strconv.digits] in *;
    try reflexivity;
    match goal with
    | |- context [strconv.digit ?c] =>
        let v := eval vm_compute in (strconv.digit c) in
        change (strconv.digit c) with v
    end; cbv beta iota zeta;
    match goal with
    | |- context [?b >? maxVal] =>
        pose proof (mono d b ltac:(lia));
        destruct (Z.gtb_spec b maxVal); [lia | apply IHd; lia]
    end.
Qed.

Lemma decimal_value_of_uint_acc (d : Decimal.uint) (acc : positive) :
  decimal_value d (Zpos acc) = Zpos (Pos.of_uint_acc d acc).
Proof.
  revert acc; induction d; intros acc;
    cbn [decimal_value Pos.of_uint_acc]; try reflexivity;
    match goal with
    | |- decimal_value d ?b = Zpos (Pos.of_uint_acc d ?a) =>
        replace b with (Zpos a) by lia; apply IHd
    end.
Qed.

Lemma decimal_value_of_uint (d : Decimal.uint) :
  decimal_value d 0 = Z.of_N (Pos.of_uint d).
Proof.
  induction d; cbn [decimal_value Pos.of_uint]; try reflexivity;
    try exact IHd;
    match goal with
    | |- decimal_value d ?b = _ =>
        change b with (Zpos 1) || change b with (Zpos 2)
        || change b with (Zpos 3) || change b with (Zpos 4)
        || change b with (Zpos 5) || change b with (Zpos 6)
        || change b with (Zpos 7) || change b with (Zpos 8)
        || change b with (Zpos 9)
    end; rewrite decimal_value_of_uint_acc; reflexivity.
Qed.

Lemma decimal_value_to_uint (p : positive) :
  decimal_value (Pos.to_uint p) 0 = Zpos p.
Proof.
  now rewrite decimal_value_of_uint, DecimalPos.Unsigned.of_to.
Qed.

Lemma string_of_uint_token (d : Decimal.uint) :
  noSpace (NilEmpty.string_of_uint d) = true
  /\ noLF (NilEmpty.string_of_uint d) = true.
Proof.
  induction d as [|d [H1 H2]|d [H1 H2]|d [H1 H2]|d [H1 H2]|d [H1 H2]
                 |d [H1 H2]|d [H1 H2]|d [H1 H2]|d [H1 H2]|d [H1 H2]];
    cbn [NilEmpty.string_of_uint noSpace noLF]; rewrite ?H1, ?H2;
    split; reflexivity.
Qed.

(** The numeral of a positive number: its digits, the first of them no
    sign. *)
Lemma Itoa_pos (p : positive) :
  strconv.Itoa (Zpos p) = NilEmpty.string_of_uint (Pos.to_uint p)
  /\ exists c s, strconv.Itoa (Zpos p) = String c s
                 /\ Ascii.eqb c "+" = false /\ Ascii.eqb c "-" = false.
Proof.
  unfold strconv.Itoa. cbn [Z.to_int NilZero.string_of_int].
  pose proof (DecimalPos.Unsigned.to_uint_nonnil p) as Hn.
  destruct (Pos.to_uint p); [contradiction|..];
    (split; [reflexivity|]); cbn [NilZero.string_of_uint NilEmpty.string_of_uint];
    eexists; eexists; (split; [reflexivity|split; reflexivity]).
Qed.

Lemma Itoa_token (n : Z) :
  noSpace (strconv.Itoa n) = true /\ noLF (strconv.Itoa n) = true.
Proof.
  destruct n as [|p|p].
  - split; reflexivity.
  - rewrite (proj1 (Itoa_pos p)). apply string_of_uint_token.
  - unfold strconv.Itoa. cbn [Z.to_int NilZero.string_of_int].
    pose proof (DecimalPos.Unsigned.to_uint_nonnil p) as Hn.
    replace (NilZero.string_of_uint (Pos.to_uint p))
      with (NilEmpty.string_of_uint (Pos.to_uint p))
      by (destruct (Pos.to_uint p); [contradiction|reflexivity..]).
    cbn [noSpace noLF].
    destruct (string_of_uint_token (Pos.to_uint p)) as [-> ->].
    split; reflexivity.
Qed.

(** [ParseUint] reads back what [%d] prints of a number that fits. *)
Lemma ParseUint_Itoa (n bitSize : Z) :
  0 <= n < 2 ^ bitSize ->
  strconv.ParseUint (strconv.Itoa n) bitSize = inr n.
Proof.
  intros [H0 H1]. destruct n as [|p|p]; [| |lia].
  - change (strconv.ParseUint (strconv.Itoa 0) bitSize)
      with (strconv.digits (NilEmpty.string_of_uint (D0 Nil)) 0
              (2 ^ bitSize - 1)).
    rewrite digits_string_of_uint; cbn [decimal_value]; [reflexivity|lia..].
  - destruct (Itoa_pos p) as [He (c & s & Hs & _)].
    unfold strconv.ParseUint. rewrite Hs, <- Hs, He.
    rewrite digits_string_of_uint; rewrite ?decimal_value_to_uint;
      [reflexivity | lia | lia].
Qed.

(** [ParseInt] reads back what [%d] prints of a signed number that fits. *)
Lemma ParseInt_Itoa (n bitSize : Z) :
  0 < bitSize ->
  - 2 ^ (bitSize - 1) <= n < 2 ^ (bitSize - 1) ->
  strconv.ParseInt (strconv.Itoa n) bitSize = inr n.
Proof.
  intros Hb [Hlo Hhi].
  assert (Hpow : 2 ^ bitSize = 2 * 2 ^ (bitSize - 1)).
  { replace bitSize with (Z.succ (bitSize - 1)) at 1 by lia.
    apply Z.pow_succ_r. lia. }
  assert (Hp : 0 < 2 ^ (bitSize - 1)) by (apply Z.pow_pos_nonneg; lia).
  destruct n as [|p|p].
  - unfold strconv.ParseInt. cbn -[Z.pow Z.sub Z.gtb Z.geb strconv.ParseUint].
    change "0" with (strconv.Itoa 0) at 1. rewrite ParseUint_Itoa by lia.
    rewrite Z.geb_leb. destruct (Z.leb_spec (2 ^ (bitSize - 1)) 0);
      [lia | reflexivity].
  - destruct (Itoa_pos p) as [_ (c & s & Hs & Hplus & Hminus)].
    unfold strconv.ParseInt. rewrite Hs, Hplus, Hminus. cbn [orb negb andb].
    rewrite <- Hs, ParseUint_Itoa by lia.
    rewrite Z.geb_leb. destruct (Z.leb_spec (2 ^ (bitSize - 1)) (Zpos p));
      [lia | reflexivity].
  - unfold strconv.ParseInt, strconv.Itoa.
    cbn [Z.to_int NilZero.string_of_int Ascii.eqb Bool.eqb orb negb andb].
    change (NilZero.string_of_uint (Pos.to_uint p))
      with (strconv.Itoa (Zpos p)).
    rewrite ParseUint_Itoa by lia.
    rewrite Z.gtb_ltb. destruct (Z.ltb_spec (2 ^ (bitSize - 1)) (Zpos p));
      [lia | reflexivity].
Qed.

(** ** The primitives, characterised *)

Lemma Reader_eta (r : Reader) : r = mkReader (pending r) (fail r).
Proof. now destruct r. Qed.

Lemma take_2_crnl (s : string) :
  take 2 s = crnl -> s = crnl ++ drop 2 s.
Proof. intros H. rewrite <- H. symmetry. apply take_drop. Qed.

Lemma Read_length {B : Buffering} (n : nat) (r r2 : Reader) (b : string) :
  bufio.Read n r = (b, None, r2) ->
  String.length b
  = Nat.min (Nat.min n (Nat.max 1 (buffered r))) (String.length (pending r)).
Proof.
  unfold bufio.Read. destruct (pending r) as [|c s] eqn:E; [discriminate|].
  cbv zeta. intros [= <- _]. apply length_take.
Qed.

(** A block that [readBlock] returns was on the stream, followed by the
    terminator, and the one [Read] made for the terminator found its two
    bytes in the buffer. *)
Lemma readBlock_ok_inv_buffered
    {B : Buffering} (size : Z) (r r1 : Reader) (block : string) :
  readBlock size r = (Ok block, r1) ->
  0 <= size <= 1048576 /\ len block = size
  /\ pending r = block ++ crnl ++ pending r1 /\ fail r1 = fail r
  /\ (2 <= buffered (mkReader (crnl ++ pending r1) (fail r)))%nat.
Proof.
  unfold readBlock, maxDataBlock.
  destruct (Z.ltb_spec size 0); cbn [orb]; [discriminate|].
  rewrite Z.gtb_ltb.
  destruct (Z.ltb_spec 1048576 size); [discriminate|].
  unfold io.ReadAtLeast.
  destruct (Nat.leb_spec (Z.to_nat size) (String.length (pending r)));
    [|cbn [isSome]; rewrite orb_true_r; discriminate].
  cbn [isSome]. rewrite orb_false_r.
  destruct (Z.eqb_spec (len (take (Z.to_nat size) (pending r))) size)
    as [Hlen|]; [|discriminate].
  cbn [negb].
  destruct (bufio.Read (Z.to_nat termLen)
              (mkReader (drop (Z.to_nat size) (pending r)) (fail r)))
    as [[b [err2|]] r2] eqn:E; [discriminate|].
  cbn [isSome orb].
  destruct (Z.eqb_spec (len b) termLen) as [Hb|]; [|discriminate].
  cbn [negb orb].
  destruct (String.eqb_spec b crnl) as [->|]; [|discriminate].
  cbn [negb]. intros Heq; injection Heq as <- <-.
  pose proof (Read_length _ _ _ _ E) as Hl.
  apply Read_prefix in E. cbn [pending fail] in *.
  destruct E as (E & Ef & _).
  repeat split; try lia; try exact Hlen; try exact Ef.
  - rewrite <- (take_drop (Z.to_nat size) (pending r)) at 1. now rewrite E.
  - rewrite <- E. change (String.length crnl) with 2%nat in Hl. lia.
Qed.

Lemma readBlock_ok_inv
    {B : Buffering} (size : Z) (r r1 : Reader) (block : string) :
  readBlock size r = (Ok block, r1) ->
  0 <= size <= 1048576 /\ len block = size
  /\ pending r = block ++ crnl ++ pending r1 /\ fail r1 = fail r.
Proof.
  intros H. apply readBlock_ok_inv_buffered in H. tauto.
Qed.

(** X1: [readBlock size] succeeds exactly on a stream that starts with
    [size] bytes, [size] within 0..1048576, followed by "\r\n", when the
    one [Read] made for the terminator finds both its bytes in the
    buffer: it returns the bytes of the block as they are, whatever they
    are, and leaves the reader right after the terminator.  A terminator
    of which a single byte is in the buffer makes it fail, though the
    stream is well formed. *)
Theorem readBlock_ok_iff
    {B : Buffering} (size : Z) (r r1 : Reader) (block : string) :
  readBlock size r = (Ok block, r1)
  <-> 0 <= size <= 1048576 /\ len block = size
      /\ pending r = block ++ crnl ++ pending r1 /\ fail r1 = fail r
      /\ (2 <= buffered (mkReader (crnl ++ pending r1) (fail r)))%nat.
Proof.
  split.
  - apply readBlock_ok_inv_buffered.
  - intros (Hs & Hlen & Hp & Hf & Hb). subst size.
    rewrite (Reader_eta r), Hp, (Reader_eta r1), Hf.
    apply readBlock_in_range; [lia | exact Hb].
Qed.

Lemma readBlock_ok_iff_witness :
  readBlock 4 (stream ("a" ++ crnl ++ "b" ++ crnl ++ "+OK" ++ crnl))
  = (Ok ("a" ++ crnl ++ "b"), stream ("+OK" ++ crnl)).
Proof.
  apply (proj2 (readBlock_ok_iff 4
                  (stream ("a" ++ crnl ++ "b" ++ crnl ++ "+OK" ++ crnl))
                  (stream ("+OK" ++ crnl)) ("a" ++ crnl ++ "b"))).
  repeat split; cbn; lia.
Defined.

(** X24: a terminator of which one byte only is in the buffer: the [Read]
    made for it hands over the carriage return alone, and the block is
    [ErrMalformed] though the stream is well formed. *)
Lemma readBlock_terminator_not_buffered
    {B : Buffering} (block rest f : string) :
  len block <= 1048576 ->
  (buffered (mkReader (crnl ++ rest) f) <= 1)%nat ->
  readBlock (len block) (mkReader (block ++ crnl ++ rest) f)
  = (Err ErrMalformed, mkReader (String LF rest) f).
Proof.
  intros H Hb. unfold readBlock, maxDataBlock, len in *.
  destruct (Z.of_nat (String.length block) <? 0) eqn:E1;
    [apply Z.ltb_lt in E1; lia|].
  destruct (Z.of_nat (String.length block) >? 1048576) eqn:E2;
    [rewrite Z.gtb_ltb in E2; apply Z.ltb_lt in E2; lia|].
  cbn [orb]. rewrite Nat2Z.id. unfold io.ReadAtLeast. cbn [pending fail].
  rewrite length_app.
  destruct (Nat.leb_spec (String.length block)
              (String.length block + String.length (crnl ++ rest))); [|lia].
  rewrite take_app, drop_app, Z.eqb_refl. cbn [negb orb isSome].
  unfold bufio.Read. cbn [pending fail crnl append]. cbv zeta.
  replace (Nat.min (Z.to_nat termLen)
             (Nat.max 1 (buffered (mkReader (String CR (String LF rest)) f))))
    with 1%nat by (cbn [crnl append] in Hb; change (Z.to_nat termLen) with 2%nat; lia).
  reflexivity.
Qed.

(** The block of 4095 bytes at the head of a response: the first read of
    the connection fills the buffer with the block and the carriage
    return, and [readBlock] fails on the well-formed stream. *)
Lemma readBlock_terminator_not_buffered_witness :
  readBlock (B := first_fill 4097) (len (replicate 4095 "a"))
            (mkReader (replicate 4095 "a" ++ crnl ++ "") "EOF")
  = (Err ErrMalformed, mkReader (String LF "") "EOF").
Proof.
  apply (readBlock_terminator_not_buffered (B := first_fill 4097)
           (replicate 4095 "a") "" "EOF").
  - vm_compute. discriminate.
  - vm_compute. lia.
Defined.

Lemma cut_inv (s l rest : string) :
  bufio.cut LF s = Some (l, rest) ->
  exists l0, l = l0 ++ String LF "" /\ noLF l0 = true
             /\ s = l0 ++ String LF rest.
Proof.
  revert l; induction s as [|c s IH]; intros l; cbn [bufio.cut];
    [discriminate|].
  destruct (Ascii.eqb_spec c LF) as [->|Hc].
  - intros H; injection H as <- <-. now exists "".
  - destruct (bufio.cut LF s) as [[l' rest']|]; [|discriminate].
    intros H; injection H as <- <-.
    destruct (IH l' eq_refl) as (l0 & -> & Hn & ->).
    exists (String c l0). cbn [append noLF]. rewrite Hn.
    apply Ascii.eqb_neq in Hc. now rewrite Hc.
Qed.

Lemma get_last (l t : string) :
  l <> "" -> String.get (String.length l - 1) (l ++ t) = last l.
Proof.
  induction l as [|c l IH]; [congruence|]. intros _.
  destruct l as [|c' l]; [reflexivity|].
  change (last (String c (String c' l))) with (last (String c' l)).
  rewrite <- IH by discriminate.
  replace (String.length (String c (String c' l)) - 1)%nat
    with (S (String.length (String c' l) - 1)) by (cbn; lia).
  reflexivity.
Qed.

Lemma last_snoc (l : string) (c : ascii) :
  last l = Some c -> l = take (String.length l - 1) l ++ String c "".
Proof.
  induction l as [|a l IH]; [discriminate|].
  destruct l as [|b l]; cbn [last].
  - intros H; injection H as <-. reflexivity.
  - intros H. specialize (IH H).
    replace (String.length (String a (String b l)) - 1)%nat
      with (S (String.length (String b l) - 1)) by (cbn; lia).
    cbn [take append]. f_equal. exact IH.
Qed.

Lemma noLF_take (n : nat) (s : string) : noLF s = true -> noLF (take n s) = true.
Proof.
  revert s; induction n as [|n IH]; intros [|c s]; cbn; auto.
  destruct (Ascii.eqb c LF); cbn; [discriminate | apply IH].
Qed.

Lemma take_app_le (n : nat) (s t : string) :
  (n <= String.length s)%nat -> take n (s ++ t) = take n s.
Proof.
  revert s; induction n as [|n IH]; intros [|c s] H; cbn in *;
    try reflexivity; try lia.
  now rewrite IH by lia.
Qed.

Lemma cut_first_LF (l rest : string) :
  noLF l = true ->
  bufio.cut LF (l ++ String LF rest) = Some (l ++ String LF "", rest).
Proof.
  induction l as [|c l IH]; [reflexivity|].
  cbn [append bufio.cut noLF].
  destruct (Ascii.eqb c LF); cbn [negb andb]; [discriminate|].
  intros H. now rewrite (IH H).
Qed.

(** X2: [readLine] succeeds exactly on a stream whose bytes up to the
    first line feed end in "\r\n": it returns the bytes before the
    terminator and leaves the reader right after it. *)
Theorem readLine_ok_iff (r r1 : Reader) (line : string) :
  readLine r = (Ok line, r1)
  <-> noLF line = true /\ pending r = line ++ crnl ++ pending r1
      /\ fail r1 = fail r.
Proof.
  split.
  - unfold readLine, bufio.ReadBytes.
    destruct (bufio.cut LF (pending r)) as [[l rest]|] eqn:Hc;
      [|discriminate].
    destruct (cut_inv _ _ _ Hc) as (l0 & -> & Hn & Hp).
    unfold len, termLen. rewrite length_app. cbn [String.length].
    destruct l0 as [|a l0']; [discriminate|].
    assert (Hne : String a l0' <> "") by discriminate.
    assert (Hpos : (1 <= String.length (String a l0'))%nat) by (cbn; lia).
    remember (String a l0') as l0 eqn:El0. clear El0.
    destruct (Z.ltb_spec (Z.of_nat (String.length l0 + 1)) 2); [lia|].
    replace (String.length l0 + 1 - 2)%nat with (String.length l0 - 1)%nat
      by lia.
    rewrite get_last by exact Hne.
    destruct (last l0) as [c|] eqn:Hl; [|discriminate].
    destruct (Ascii.eqb_spec c CR) as [->|]; [|discriminate].
    cbn [negb]. intros Heq; injection Heq as <- <-. cbn [pending fail].
    rewrite take_app_le by lia.
    split; [now apply noLF_take|]. split; [|reflexivity].
    rewrite Hp. rewrite (last_snoc _ _ Hl) at 1.
    now rewrite app_assoc.
  - intros (Hn & Hp & Hf).
    rewrite (Reader_eta r), Hp, (Reader_eta r1), Hf.
    now apply readLine_line.
Qed.

Lemma readLine_ok_iff_witness :
  readLine (stream ("+OK 1" ++ crnl ++ "a" ++ crnl))
  = (Ok "+OK 1", stream ("a" ++ crnl)).
Proof.
  apply (proj2 (readLine_ok_iff
                  (stream ("+OK 1" ++ crnl ++ "a" ++ crnl))
                  (stream ("a" ++ crnl)) "+OK 1")).
  repeat split.
Defined.

(** X3: a line that ends in a line feed without a carriage return before
    it is [ErrMalformed], the empty line "\n" included; the bytes up to
    the line feed are consumed. *)
Theorem readLine_rejects_bare_LF (l rest f : string) :
  noLF l = true -> last l <> Some CR ->
  readLine (mkReader (l ++ String LF rest) f)
  = (Err ErrMalformed, mkReader rest f).
Proof.
  intros Hn Hl. unfold readLine, bufio.ReadBytes. cbn [pending fail].
  rewrite (cut_first_LF _ _ Hn).
  unfold len, termLen. rewrite length_app. cbn [String.length].
  destruct l as [|a l']; [reflexivity|].
  assert (Hne : String a l' <> "") by discriminate.
  assert (Hpos : (1 <= String.length (String a l'))%nat) by (cbn; lia).
  remember (String a l') as l eqn:El. clear El.
  destruct (Z.ltb_spec (Z.of_nat (String.length l + 1)) 2); [reflexivity|].
  replace (String.length l + 1 - 2)%nat with (String.length l - 1)%nat
    by lia.
  rewrite get_last by exact Hne.
  destruct (last l) as [c|]; [|reflexivity].
  destruct (Ascii.eqb_spec c CR) as [->|]; [congruence | reflexivity].
Qed.

Lemma readLine_rejects_bare_LF_witness :
  readLine (stream ("+OK" ++ String LF ("a" ++ crnl)))
  = (Err ErrMalformed, stream ("a" ++ crnl))
  /\ readLine (stream (String LF "")) = (Err ErrMalformed, stream "").
Proof.
  split.
  - apply (readLine_rejects_bare_LF "+OK" ("a" ++ crnl) "EOF");
      [reflexivity | discriminate].
  - apply (readLine_rejects_bare_LF "" "" "EOF");
      [reflexivity | discriminate].
Defined.

(** ** Acknowledgement lines *)

Lemma readLine_error_kind (r : Reader) (e : error) :
  fst (readLine r) = Err e -> e = ErrMalformed \/ e = NetError (fail r).
Proof.
  unfold readLine, bufio.ReadBytes.
  destruct (bufio.cut LF (pending r)) as [[l rest]|]; cbn.
  - destruct (len l <? termLen); cbn; [intros [= <-]; auto|].
    destruct (String.get (String.length l - 2) l) as [c|]; cbn;
      [|intros [= <-]; auto].
    destruct (negb (Ascii.eqb c CR)); cbn; [intros [= <-]; auto|discriminate].
  - intros [= <-]; auto.
Qed.

Lemma SplitN2_inv (line : string) :
  (SplitN2 line = [line] /\ noSpace line = true)
  \/ exists a b, SplitN2 line = [a; b] /\ noSpace a = true
                 /\ line = a ++ String SP b.
Proof.
  induction line as [|c line IH]; [left; split; reflexivity|].
  cbn [SplitN2 noSpace].
  destruct (Ascii.eqb_spec c SP) as [->|Hc].
  - right. exists "", line. repeat split.
  - cbn [negb andb]. destruct IH as [[-> ->]|(a & b & -> & Ha & ->)].
    + left. split; reflexivity.
    + right. exists (String c a), b. cbn [noSpace append].
      apply Ascii.eqb_neq in Hc. rewrite Hc, Ha. repeat split.
Qed.

(** What [errorFromLine] makes of a line, read backwards: a server error
    has a code that is not empty and has no space, and code and text are
    the line after its first byte. *)
Lemma errorFromLine_inv (line code text : string) (b : bool) :
  errorFromLine line = (ResponseError code text, b) ->
  b = true /\ code <> "" /\ noSpace code = true
  /\ drop 1 line = ResponseError_Error code text /\ line <> "".
Proof.
  unfold errorFromLine, ResponseError_Error.
  destruct (SplitN2_inv line) as [[-> Hn]|(a & c & -> & Hn & ->)];
    cbn [hd].
  - destruct line as [|s l]; [discriminate|].
    rewrite len_le_1_String. destruct (String.eqb_spec l ""); [discriminate|].
    cbn [drop]. intros [= <- <- <-]. cbn [String.eqb negb].
    cbn [noSpace] in Hn. apply andb_prop in Hn as [_ Hn].
    repeat split; auto; discriminate.
  - destruct a as [|s l]; [discriminate|].
    rewrite len_le_1_String. destruct (String.eqb_spec l ""); [discriminate|].
    rewrite len_eqb_0. destruct (c =? "")%string eqn:Ec; [discriminate|].
    cbn [drop append]. intros [= <- <- <-]. rewrite Ec. cbn [negb].
    cbn [noSpace] in Hn. apply andb_prop in Hn as [_ Hn].
    repeat split; auto; discriminate.
Qed.

(** The line of a server error, decoded: code and text come back. *)
Lemma errorFromLine_Error (code text : string) :
  noSpace code = true -> code <> "" ->
  errorFromLine ("-" ++ ResponseError_Error code text)
  = (ResponseError code text, true).
Proof.
  intros Hn Hc. assert (Hs : noSpace (String "-" code) = true) by exact Hn.
  unfold errorFromLine, ResponseError_Error.
  destruct (String.eqb_spec text "") as [->|Ht]; cbn [negb].
  - change ("-" ++ code) with (String "-" code).
    rewrite (SplitN2_token _ Hs). cbn [hd drop]. rewrite len_le_1_String.
    destruct (String.eqb_spec code ""); [contradiction | reflexivity].
  - change ("-" ++ code ++ " " ++ text)
      with (String "-" code ++ String SP text).
    rewrite (SplitN2_token_text _ text Hs). cbn [hd drop].
    rewrite len_le_1_String, len_eqb_0.
    destruct (String.eqb_spec code ""); [contradiction|].
    destruct (String.eqb_spec text ""); [contradiction | reflexivity].
Qed.

(** X4: [parseOk] returns no error exactly when the line read is "+OK",
    nothing before and nothing after. *)
Theorem parseOk_ok_iff (r : Reader) :
  fst (parseOk r) = Ok tt <-> fst (readLine r) = Ok "+OK".
Proof.
  unfold parseOk, bind, ret, raise.
  destruct (readLine r) as [[line|e] r1]; cbn [fst]; [|split; discriminate].
  split.
  - destruct (len line <? 3); cbn [fst]; [discriminate|].
    destruct (String.eqb_spec (sign line) "+") as [H1|];
      [|cbn [andb]; destruct (negb (sign line =? "-")%string); discriminate].
    destruct (String.eqb_spec (slice line 1 3) "OK") as [H2|];
      [|cbn [andb]; destruct (negb (sign line =? "-")%string); discriminate].
    destruct (Z.eqb_spec (len line) 3) as [H3|];
      [|cbn [andb]; destruct (negb (sign line =? "-")%string); discriminate].
    intros _. destruct line as [|a [|b [|c [|d l]]]]; try discriminate.
    + cbn in H1, H2. congruence.
    + unfold len in H3. cbn in H3. lia.
  - intros [= ->]. reflexivity.
Qed.

Lemma parseOk_ok_iff_witness :
  fst (readLine (stream ("+OK" ++ crnl))) = Ok "+OK".
Proof.
  apply (proj1 (parseOk_ok_iff (stream ("+OK" ++ crnl)))). reflexivity.
Defined.

Lemma take1_drop1 (s : string) : s <> "" -> s = take 1 s ++ drop 1 s.
Proof. destruct s; [congruence | reflexivity]. Qed.

(** X5: a server-reported error out of [parseOk] or [parseOkWithReply]
    always has a code that is not empty and holds no space, and the line
    that was read is the sign "-" followed by the error's [Error()]
    string: code and text are the server's, byte for byte. *)
Theorem server_error_is_the_line (r : Reader) (code text : string) :
  fst (parseOk r) = Err (ResponseError code text)
  \/ fst (parseOkWithReply r) = Err (ResponseError code text) ->
  fst (readLine r) = Ok ("-" ++ ResponseError_Error code text)
  /\ code <> "" /\ noSpace code = true.
Proof.
  assert (key : forall line,
             (sign line =? "-")%string = true ->
             fst (errorFromLine line) = ResponseError code text ->
             line = "-" ++ ResponseError_Error code text
             /\ code <> "" /\ noSpace code = true).
  { intros line Hs He. destruct (errorFromLine line) as [e b] eqn:E.
    cbn [fst] in He. subst e.
    destruct (errorFromLine_inv _ _ _ _ E) as (_ & Hc & Hn & Hd & Hne).
    repeat split; auto.
    rewrite (take1_drop1 _ Hne), Hd. apply String.eqb_eq in Hs.
    unfold sign in Hs. now rewrite Hs. }
  unfold parseOk, parseOkWithReply, bind, ret, raise.
  pose proof (readLine_error_kind r) as Hk.
  destruct (readLine r) as [[line|e] r1]; cbn [fst] in *.
  2:{ intros [[= ->]|[= ->]];
        destruct (Hk _ eq_refl) as [?|?]; discriminate. }
  intros [H|H].
  - destruct (len line <? 3); cbn [fst] in H; [discriminate|].
    destruct ((sign line =? "+")%string && (slice line 1 3 =? "OK")%string
              && (len line =? 3)); cbn [fst] in H; [discriminate|].
    destruct (sign line =? "-")%string eqn:Hs; cbn [negb fst] in H;
      [|discriminate].
    injection H as H. destruct (key line Hs H) as (-> & ? & ?). auto.
  - destruct (len line <? 5); cbn [fst] in H; [discriminate|].
    destruct ((sign line =? "+")%string && (slice line 1 3 =? "OK")%string).
    { destruct (strconv.Atoi (drop 4 line)); cbn [fst] in H; discriminate. }
    destruct (sign line =? "-")%string eqn:Hs; cbn [negb fst] in H;
      [|discriminate].
    injection H as H. destruct (key line Hs H) as (-> & ? & ?). auto.
Qed.

Lemma server_error_is_the_line_witness :
  fst (readLine (stream ("-CLIENT-ERROR Invalid Job ID" ++ crnl)))
  = Ok ("-" ++ ResponseError_Error "CLIENT-ERROR" "Invalid Job ID")
  /\ "CLIENT-ERROR" <> "" /\ noSpace "CLIENT-ERROR" = true.
Proof.
  apply (server_error_is_the_line
           (stream ("-CLIENT-ERROR Invalid Job ID" ++ crnl))
           "CLIENT-ERROR" "Invalid Job ID").
  left; reflexivity.
Defined.

Lemma len_app (s t : string) : len (s ++ t) = len s + len t.
Proof. unfold len. rewrite length_app. lia. Qed.

(** X6: an error line "-CODE" or "-CODE TEXT" on the stream, whatever
    follows it, is returned as the server's error with this code and
    text: by [parseOk] when the line has at least 3 bytes, by
    [parseOkWithReply] when it has at least 5. *)
Theorem server_error_line_decoded (code text rest f : string) :
  noSpace code = true -> code <> "" ->
  noLF code = true -> noLF text = true ->
  (3 <= len ("-" ++ ResponseError_Error code text) ->
   parseOk (mkReader ("-" ++ ResponseError_Error code text ++ crnl ++ rest) f)
   = (Err (ResponseError code text), mkReader rest f))
  /\ (5 <= len ("-" ++ ResponseError_Error code text) ->
      parseOkWithReply
        (mkReader ("-" ++ ResponseError_Error code text ++ crnl ++ rest) f)
      = (Err (ResponseError code text), mkReader rest f)).
Proof.
  intros Hs Hc Hlc Hlt.
  assert (Hl : noLF ("-" ++ ResponseError_Error code text) = true).
  { unfold ResponseError_Error.
    destruct (negb (text =? "")%string); cbn [append noLF Ascii.eqb Bool.eqb negb andb];
      rewrite ?noLF_app; cbn [noLF Ascii.eqb Bool.eqb negb andb];
      now rewrite ?Hlc, ?Hlt. }
  pose proof (errorFromLine_Error code text Hs Hc) as He.
  change ("-" ++ ResponseError_Error code text ++ crnl ++ rest)
    with ("-" ++ (ResponseError_Error code text ++ crnl ++ rest)).
  rewrite <- (app_assoc "-").
  set (line := "-" ++ ResponseError_Error code text) in *.
  split; intros Hlen; unfold parseOk, parseOkWithReply, bind, raise;
    rewrite (readLine_line _ _ _ Hl).
  - destruct (Z.ltb_spec (len line) 3); [lia|].
    change (sign line) with "-". cbn [String.eqb Ascii.eqb Bool.eqb andb negb].
    now rewrite He.
  - destruct (Z.ltb_spec (len line) 5); [lia|].
    change (sign line) with "-". cbn [String.eqb Ascii.eqb Bool.eqb andb negb].
    now rewrite He.
Qed.

Lemma server_error_line_decoded_witness :
  parseOk (stream ("-NOT-FOUND" ++ crnl ++ "+OK" ++ crnl))
  = (Err (ResponseError "NOT-FOUND" ""), stream ("+OK" ++ crnl))
  /\ parseOkWithReply (stream ("-CLIENT-ERROR Invalid Job ID" ++ crnl))
     = (Err (ResponseError "CLIENT-ERROR" "Invalid Job ID"), stream "").
Proof.
  split.
  - apply (proj1 (server_error_line_decoded "NOT-FOUND" ""
                    ("+OK" ++ crnl) "EOF"
                    eq_refl ltac:(discriminate) eq_refl eq_refl)).
    cbn; lia.
  - apply (proj2 (server_error_line_decoded "CLIENT-ERROR" "Invalid Job ID"
                    "" "EOF"
                    eq_refl ltac:(discriminate) eq_refl eq_refl)).
    cbn; lia.
Defined.

(** X7: the length guards come before the error line is looked at: a
    well-formed error line of fewer than 5 bytes, such as "-ERR", read
    as the reply to a counted command is [ErrMalformed], and one of fewer
    than 3 bytes, such as "-E", is [ErrMalformed] for every command,
    though [errorFromLine] would make a server error of it. *)
Theorem short_error_line_is_malformed (code rest f : string) :
  noSpace code = true -> code <> "" -> noLF code = true ->
  errorFromLine ("-" ++ code) = (ResponseError code "", true)
  /\ (len code <= 3 ->
      parseOkWithReply (mkReader ("-" ++ code ++ crnl ++ rest) f)
      = (Err ErrMalformed, mkReader rest f))
  /\ (len code <= 1 ->
      parseOk (mkReader ("-" ++ code ++ crnl ++ rest) f)
      = (Err ErrMalformed, mkReader rest f)).
Proof.
  intros Hs Hc Hl.
  split; [exact (errorFromLine_Error code "" Hs Hc)|].
  assert (Hl' : noLF ("-" ++ code) = true) by exact Hl.
  change ("-" ++ code ++ crnl ++ rest) with ("-" ++ (code ++ crnl ++ rest)).
  rewrite <- (app_assoc "-").
  assert (Hlen : len ("-" ++ code) = 1 + len code)
    by (unfold len; cbn [append String.length]; lia).
  split; intros Hle; unfold parseOk, parseOkWithReply, bind, raise;
    rewrite (readLine_line _ _ _ Hl'), Hlen.
  - destruct (Z.ltb_spec (1 + len code) 5); [reflexivity | lia].
  - destruct (Z.ltb_spec (1 + len code) 3); [reflexivity | lia].
Qed.

Lemma short_error_line_is_malformed_witness :
  errorFromLine "-ERR" = (ResponseError "ERR" "", true)
  /\ parseOkWithReply (stream ("-ERR" ++ crnl)) = (Err ErrMalformed, stream "")
  /\ parseOk (stream ("-E" ++ crnl)) = (Err ErrMalformed, stream "").
Proof.
  refine (conj _ (conj _ _)).
  - apply (proj1 (short_error_line_is_malformed "ERR" "" "EOF"
                    eq_refl ltac:(discriminate) eq_refl)).
  - apply (proj1 (proj2 (short_error_line_is_malformed "ERR" "" "EOF"
                           eq_refl ltac:(discriminate) eq_refl))).
    cbn; lia.
  - apply (proj2 (proj2 (short_error_line_is_malformed "E" "" "EOF"
                           eq_refl ltac:(discriminate) eq_refl))).
    cbn; lia.
Defined.

Lemma Itoa_nonempty (n : Z) : 1 <= len (strconv.Itoa n).
Proof.
  destruct n as [|p|p].
  - cbn. lia.
  - destruct (Itoa_pos p) as [_ (c & s & -> & _)].
    unfold len. cbn [String.length]. lia.
  - unfold strconv.Itoa. cbn [Z.to_int NilZero.string_of_int].
    unfold len. cbn [String.length]. lia.
Qed.

(** X8: the reply count comes back as the server printed it: "+OK <n>"
    for any [n] of the 64-bit [int] range, negative ones included,
    decodes to [n], and the reader stands after the line. *)
Theorem parseOkWithReply_count (n : Z) (rest f : string) :
  - 2 ^ 63 <= n < 2 ^ 63 ->
  parseOkWithReply (mkReader ("+OK " ++ strconv.Itoa n ++ crnl ++ rest) f)
  = (Ok n, mkReader rest f).
Proof.
  intros Hn. destruct (Itoa_token n) as [_ Hl].
  change ("+OK " ++ strconv.Itoa n ++ crnl ++ rest)
    with ("+OK " ++ (strconv.Itoa n ++ crnl ++ rest)).
  rewrite <- (app_assoc "+OK ").
  unfold parseOkWithReply, bind, ret.
  rewrite readLine_line by exact Hl.
  pose proof (Itoa_nonempty n) as Hne.
  assert (Hlen : len ("+OK " ++ strconv.Itoa n) = 4 + len (strconv.Itoa n))
    by (unfold len; cbn [append String.length]; lia).
  rewrite Hlen. destruct (Z.ltb_spec (4 + len (strconv.Itoa n)) 5); [lia|].
  destruct (strconv.Itoa n) as [|c s] eqn:E; [cbn in Hne; lia|].
  cbn [sign take append slice substring Nat.sub String.eqb Ascii.eqb
       Bool.eqb andb drop].
  rewrite <- E. unfold strconv.Atoi.
  rewrite ParseInt_Itoa by (change (64 - 1) with 63; lia). reflexivity.
Qed.

Lemma parseOkWithReply_count_witness :
  parseOkWithReply (stream ("+OK -3" ++ crnl ++ "rest"))
  = (Ok (-3), stream "rest").
Proof.
  apply (parseOkWithReply_count (-3) "rest" "EOF"). lia.
Defined.

(** X9: the two shapes of acknowledgement exclude each other: a line
    [parseOkWithReply] accepts is [ErrMalformed] for [parseOk], and the
    line [parseOk] accepts is [ErrMalformed] for [parseOkWithReply]. *)
Theorem acknowledgement_shapes_exclusive (r : Reader) :
  (forall count, fst (parseOkWithReply r) = Ok count ->
                 fst (parseOk r) = Err ErrMalformed)
  /\ (fst (parseOk r) = Ok tt ->
      fst (parseOkWithReply r) = Err ErrMalformed).
Proof.
  unfold parseOk, parseOkWithReply, bind, ret, raise.
  destruct (readLine r) as [[line|e] r1]; cbn [fst];
    [|split; [intros ?|]; discriminate].
  split.
  - intros count.
    destruct (Z.ltb_spec (len line) 5); cbn [fst]; [discriminate|].
    destruct (Z.ltb_spec (len line) 3); [lia|].
    destruct (Z.eqb_spec (len line) 3); [lia|]. rewrite andb_false_r.
    destruct (String.eqb_spec (sign line) "+") as [Hs|]; cbn [andb].
    + intros _. rewrite Hs. reflexivity.
    + destruct (negb (sign line =? "-")%string); cbn [fst]; discriminate.
  - destruct (Z.ltb_spec (len line) 3); cbn [fst]; [discriminate|].
    destruct (Z.eqb_spec (len line) 3) as [H3|].
    + intros _. rewrite H3. reflexivity.
    + rewrite andb_false_r.
      destruct (negb (sign line =? "-")%string); cbn [fst]; discriminate.
Qed.

Lemma acknowledgement_shapes_exclusive_witness :
  fst (parseOk (stream ("+OK 1" ++ crnl))) = Err ErrMalformed
  /\ fst (parseOkWithReply (stream ("+OK" ++ crnl))) = Err ErrMalformed.
Proof.
  split.
  - apply (proj1 (acknowledgement_shapes_exclusive
                    (stream ("+OK 1" ++ crnl))) 1).
    reflexivity.
  - apply (proj2 (acknowledgement_shapes_exclusive
                    (stream ("+OK" ++ crnl)))).
    reflexivity.
Defined.

(** ** Records: what is encoded decodes, what decodes is valid *)

Lemma noSpace_app (s t : string) : noSpace (s ++ t) = noSpace s && noSpace t.
Proof.
  induction s as [|c s IH]; cbn; [reflexivity|].
  now rewrite IH, andb_assoc.
Qed.

Lemma int_of_uint64_small (n : Z) : n < 2 ^ 63 -> int_of_uint64 n = n.
Proof.
  intros H. unfold int_of_uint64. destruct (Z.ltb_spec n (2 ^ 63)); lia.
Qed.

Lemma len_nonneg (s : string) : 0 <= len s.
Proof. unfold len. lia. Qed.

(** A job-result record round-trips.  The line
    "<id> <0|1> <length>" followed by a result of that length and the
    terminator decodes to the success flag and the result, byte for
    byte, whatever bytes the result holds, and the reader stands after
    the record, when the terminator of the block is in the buffer. *)
Lemma readResult_round_trip
    {B : Buffering} (id result rest f : string) (success : bool) :
  noSpace id = true -> noLF id = true -> len result <= 1048576 ->
  (2 <= buffered (mkReader (crnl ++ rest) f))%nat ->
  readResult
    (mkReader (id ++ " " ++ (if success then "1" else "0") ++ " "
               ++ strconv.Itoa (len result) ++ crnl
               ++ result ++ crnl ++ rest) f)
  = (Ok (JobResult.mk success result), mkReader rest f).
Proof.
  intros Hs Hl Hlen Hb.
  destruct (Itoa_token (len result)) as [Hts Htl].
  pose proof (len_nonneg result) as H0.
  set (flag := if success then "1" else "0").
  set (line := id ++ String SP (flag ++ String SP (strconv.Itoa (len result)))).
  replace (id ++ " " ++ flag ++ " " ++ strconv.Itoa (len result) ++ crnl
           ++ result ++ crnl ++ rest)
    with (line ++ crnl ++ result ++ crnl ++ rest)
    by (unfold line; cbn [append]; rewrite !app_assoc; cbn [append];
        rewrite !app_assoc; reflexivity).
  assert (Hline : noLF line = true).
  { unfold line, flag. rewrite noLF_app, Hl. cbn [andb noLF].
    rewrite noLF_app. destruct success; cbn; exact Htl. }
  unfold readResult, readLine_unchecked. rewrite (readLine_line _ _ _ Hline).
  unfold line. rewrite (Split_cons _ _ Hs).
  rewrite Split_cons by (unfold flag; now destruct success).
  rewrite (Split_token _ Hts).
  rewrite ParseUint_Itoa by (split; [lia|]; cbn; lia).
  rewrite int_of_uint64_small by (cbn; lia).
  rewrite (readBlock_in_range _ _ _ Hlen Hb).
  unfold flag. now destruct success.
Qed.

(** A string [strconv.digits] accepts denotes a number between the
    accumulator it started from and the bound. *)
Lemma digits_bounds (s : string) (n m v : Z) :
  strconv.digits s n m = inr v -> 0 <= n <= m -> n <= v <= m.
Proof.
  revert n; induction s as [|c s IH]; intros n; cbn [strconv.digits].
  - intros [= <-]. lia.
  - destruct (strconv.digit c) as [d|] eqn:Hd; [|discriminate].
    assert (0 <= d).
    { unfold strconv.digit in Hd.
      destruct ((48 <=? Z.of_nat (nat_of_ascii c))
                && (Z.of_nat (nat_of_ascii c) <=? 57)) eqn:E; [|discriminate].
      injection Hd as <-. apply andb_prop in E as [E _].
      apply Z.leb_le in E. lia. }
    destruct (Z.gtb_spec (n * 10 + d) m); [discriminate|].
    intros Hv Hn. specialize (IH _ Hv). lia.
Qed.

Lemma ParseUint_bounds (s : string) (bitSize v : Z) :
  0 <= bitSize -> strconv.ParseUint s bitSize = inr v ->
  0 <= v < 2 ^ bitSize.
Proof.
  intros Hb. unfold strconv.ParseUint. destruct s; [discriminate|].
  intros H. apply digits_bounds in H.
  - lia.
  - assert (0 < 2 ^ bitSize) by (apply Z.pow_pos_nonneg; lia). lia.
Qed.

Lemma ParseInt_bounds (s : string) (bitSize v : Z) :
  0 < bitSize -> strconv.ParseInt s bitSize = inr v ->
  - 2 ^ (bitSize - 1) <= v < 2 ^ (bitSize - 1).
Proof.
  intros Hb. unfold strconv.ParseInt. destruct s as [|c s]; [discriminate|].
  destruct (strconv.ParseUint _ bitSize) as [e|un] eqn:E; [discriminate|].
  apply ParseUint_bounds in E; [|lia].
  destruct (Ascii.eqb c "-"); cbn [negb andb].
  - rewrite Z.gtb_ltb.
    destruct (Z.ltb_spec (2 ^ (bitSize - 1)) un); [discriminate|].
    intros [= <-]. lia.
  - rewrite Z.geb_leb.
    destruct (Z.leb_spec (2 ^ (bitSize - 1)) un); [discriminate|].
    intros [= <-]. lia.
Qed.

(** X10: a result that [readResult] returns holds at most 1048576 bytes. *)
Theorem readResult_result_bounded
    {B : Buffering} (r r1 : Reader) (res : JobResult.t) :
  readResult r = (Ok res, r1) -> len (JobResult.Result res) <= 1048576.
Proof.
  unfold readResult. destruct (readLine_unchecked r) as [line r0].
  destruct (Split line) as [|a [|b [|c [|d l]]]]; try discriminate.
  destruct (negb (b =? "0")%string && negb (b =? "1")%string);
    [discriminate|].
  destruct (strconv.ParseUint c 64) as [e|n]; [discriminate|].
  destruct (readBlock (int_of_uint64 n) r0) as [[block|e] r2] eqn:E;
    [|discriminate].
  intros [= <- <-]. cbn [JobResult.Result].
  apply readBlock_ok_inv in E. lia.
Qed.

Lemma int_of_uint64_bounds (u : Z) :
  0 <= u < 2 ^ 64 -> - 2 ^ 63 <= int_of_uint64 u < 2 ^ 63.
Proof.
  intros H. unfold int_of_uint64. destruct (Z.ltb_spec u (2 ^ 63)); lia.
Qed.

Section RecordFacts.

Context {B : Buffering}.
Variable uuid_FromString : string -> bool.
Variable Time : Type.
Variable time_Parse_RFC3339 : string -> option Time.

#[local] Abbreviation IJob := (InspectedJob.t Time).

(** The key loop leaves the id alone and keeps every field within the
    range of the width it was parsed with. *)
Lemma keyLoop_invariant (n : nat) :
  forall (j j' : IJob) (r r' : Reader),
    keyLoop time_Parse_RFC3339 n j r = (Ok j', r') ->
    BgJob.ID (InspectedJob.Bg j') = BgJob.ID (InspectedJob.Bg j)
    /\ (fieldsInRange j -> fieldsInRange j').
Proof.
  induction n as [n IH] using lt_wf_ind. intros j j' r r'.
  destruct n as [|n]; cbn [keyLoop].
  { intros [= <- <-]. auto. }
  destruct (readLine r) as [[line|e] r1]; [|discriminate].
  destruct (Split line) as [|key [|value [|x l]]]; try discriminate.
  assert (step : forall m (j0 : IJob) r0,
             (m <= n)%nat ->
             BgJob.ID (InspectedJob.Bg j0) = BgJob.ID (InspectedJob.Bg j) ->
             (fieldsInRange j -> fieldsInRange j0) ->
             keyLoop time_Parse_RFC3339 m j0 r0 = (Ok j', r') ->
             BgJob.ID (InspectedJob.Bg j') = BgJob.ID (InspectedJob.Bg j)
             /\ (fieldsInRange j -> fieldsInRange j')).
  { intros m j0 r0 Hm Hid Hr H. apply IH in H; [|lia].
    destruct H as [H1 H2]. split; [congruence | auto]. }
  unfold numKey.
  repeat match goal with
  | |- context [if (key =? ?k)%string then _ else _] =>
      destruct (key =? k)%string
  end; try discriminate.
  - apply step; [lia | reflexivity |].
    unfold fieldsInRange; cbn; tauto.
  - destruct (strconv.ParseUint value 32) as [e|v] eqn:E; [discriminate|].
    apply ParseUint_bounds in E; [|lia].
    apply step; [lia | reflexivity |].
    unfold fieldsInRange; cbn; intuition lia.
  - destruct (strconv.ParseUint value 64) as [e|v] eqn:E; [discriminate|].
    apply ParseUint_bounds in E; [|lia]. apply int_of_uint64_bounds in E.
    apply step; [lia | reflexivity |].
    unfold fieldsInRange; cbn; intuition lia.
  - destruct (strconv.ParseUint value 64) as [e|v]; [discriminate|].
    destruct (bufio.Read (String.length payloadKey) r1) as [[b err] r2].
    destruct (isSome err || negb (len b =? len payloadKey)
              || negb (b =? payloadKey)%string); [discriminate|].
    destruct (readBlock (int_of_uint64 v) r2) as [[payload|e] r3] eqn:E;
      [|discriminate].
    apply readBlock_ok_inv in E.
    apply step; [lia | reflexivity |].
    unfold fieldsInRange, maxDataBlock; cbn; intuition lia.
  - destruct (strconv.ParseUint value 8) as [e|v] eqn:E; [discriminate|].
    apply ParseUint_bounds in E; [|lia].
    apply step; [lia | reflexivity |].
    unfold fieldsInRange; cbn; intuition lia.
  - destruct (strconv.ParseUint value 8) as [e|v] eqn:E; [discriminate|].
    apply ParseUint_bounds in E; [|lia].
    apply step; [lia | reflexivity |].
    unfold fieldsInRange; cbn; intuition lia.
  - destruct (strconv.ParseUint value 8) as [e|v] eqn:E; [discriminate|].
    apply ParseUint_bounds in E; [|lia].
    apply step; [lia | reflexivity |].
    unfold fieldsInRange; cbn; intuition lia.
  - destruct (strconv.ParseUint value 8) as [e|v] eqn:E; [discriminate|].
    apply ParseUint_bounds in E; [|lia].
    apply step; [lia | reflexivity |].
    unfold fieldsInRange; cbn; intuition lia.
  - destruct (strconv.ParseInt value 32) as [e|v] eqn:E; [discriminate|].
    apply ParseInt_bounds in E; [|lia].
    apply step; [lia | reflexivity |].
    unfold fieldsInRange; cbn; intuition lia.
  - destruct (strconv.ParseUint value 8) as [e|v] eqn:E; [discriminate|].
    apply ParseUint_bounds in E; [|lia].
    apply step; [lia | reflexivity |].
    unfold fieldsInRange; cbn; intuition lia.
  - destruct (time_Parse_RFC3339 value) as [created|]; [|discriminate].
    apply step; [lia | reflexivity |].
    unfold fieldsInRange; cbn; tauto.
Qed.

(** X11: an inspected job that [parseInspectedJob] returns carries the id
    of its header line, an id the UUID parser accepts, and every field
    lies within the range of the width it is parsed with: [ttr] below
    2^32, the counters and the state below 256, [priority] a 32-bit signed
    number, the payload at most 1048576 bytes. *)
Theorem parseInspectedJob_valid (r r1 : Reader) (j : IJob) :
  parseInspectedJob uuid_FromString time_Parse_RFC3339 r = (Ok j, r1) ->
  uuid_FromString (BgJob.ID (InspectedJob.Bg j)) = true /\ fieldsInRange j.
Proof.
  unfold parseInspectedJob, idFromString.
  destruct (readLine r) as [[line|e] r0]; [|discriminate].
  destruct (Split line) as [|id [|kc [|x l]]]; try discriminate.
  destruct (uuid_FromString id) eqn:Hid; [|discriminate].
  destruct (strconv.Atoi kc) as [e|keyCount]; [discriminate|].
  intros H. apply keyLoop_invariant in H. destruct H as [H1 H2].
  split.
  - rewrite H1. exact Hid.
  - apply H2. unfold fieldsInRange, maxDataBlock. cbn. lia.
Qed.

(** X12: when [readInspectedJobs] succeeds, the reply count was not
    negative, the list has exactly that many jobs, and nothing is left on
    the stream. *)
Theorem readInspectedJobs_ok (count : Z) (r r1 : Reader) (jobs : list IJob) :
  readInspectedJobs uuid_FromString time_Parse_RFC3339 count r
    = (Ok jobs, r1) ->
  0 <= count /\ Z.of_nat (List.length jobs) = count /\ pending r1 = "".
Proof.
  unfold readInspectedJobs.
  destruct (jobsLoop uuid_FromString time_Parse_RFC3339 (Z.to_nat count)
              [] r) as [[js|e] r0] eqn:E; [|discriminate].
  destruct (Z.eqb_spec (Z.of_nat (List.length js)) count) as [Hc|];
    [|discriminate].
  cbn [negb]. unfold io.ReadAtLeast.
  destruct (Nat.leb_spec 1 (String.length (pending r0))); [discriminate|].
  intros [= <- <-]. cbn [pending]. repeat split; [lia | exact Hc].
Qed.

(** ** Leased jobs *)

Lemma spec_name_token (name : string) :
  spec_name name = true -> noSpace name = true /\ noLF name = true.
Proof.
  unfold spec_name. intros H. apply andb_prop in H as [_ H].
  induction name as [|c name IH]; [split; reflexivity|].
  cbn [allIn] in H. apply andb_prop in H as [Hc H].
  destruct (IH H) as [H1 H2]. cbn [noSpace noLF]. rewrite H1, H2.
  clear -Hc. destruct c as [[] [] [] [] [] [] [] []];
    vm_compute in Hc; try discriminate; split; reflexivity.
Qed.

(** A leased-job record round-trips.  The line
    "<id> <name> <ttr> <length>" with an id the UUID parser accepts, a
    name of the grammar and a time-to-run of the [int] range, followed by
    a payload of that length and the terminator, decodes to these four
    values, the payload byte for byte, when the terminator of the block
    is in the buffer. *)
Lemma readLeasedJob_round_trip
    (id name payload rest f : string) (ttr : Z) :
  uuid_FromString id = true -> noSpace id = true -> noLF id = true ->
  spec_name name = true ->
  - 2 ^ 63 <= ttr < 2 ^ 63 ->
  len payload <= 1048576 ->
  (2 <= buffered (mkReader (crnl ++ rest) f))%nat ->
  readLeasedJob uuid_FromString
    (mkReader (id ++ " " ++ name ++ " " ++ strconv.Itoa ttr ++ " "
               ++ strconv.Itoa (len payload) ++ crnl
               ++ payload ++ crnl ++ rest) f)
  = (Ok (LeasedJob.mk id name ttr payload), mkReader rest f).
Proof.
  intros Hid Hs Hl Hname Httr Hlen Hb.
  destruct (spec_name_token _ Hname) as [Hns Hnl].
  destruct (Itoa_token ttr) as [Hts Htl].
  destruct (Itoa_token (len payload)) as [Hps Hpl].
  pose proof (len_nonneg payload) as H0.
  set (line := id ++ String SP (name ++ String SP (strconv.Itoa ttr
                 ++ String SP (strconv.Itoa (len payload))))).
  replace (id ++ " " ++ name ++ " " ++ strconv.Itoa ttr ++ " "
           ++ strconv.Itoa (len payload) ++ crnl ++ payload ++ crnl ++ rest)
    with (line ++ crnl ++ payload ++ crnl ++ rest)
    by (unfold line; cbn [append]; rewrite !app_assoc; cbn [append];
        rewrite !app_assoc; cbn [append]; rewrite !app_assoc; reflexivity).
  assert (Hline : noLF line = true).
  { unfold line. rewrite noLF_app, Hl. cbn [andb noLF Ascii.eqb Bool.eqb negb].
    rewrite noLF_app, Hnl. cbn [andb noLF Ascii.eqb Bool.eqb negb].
    rewrite noLF_app, Htl. cbn [andb noLF Ascii.eqb Bool.eqb negb].
    exact Hpl. }
  unfold readLeasedJob, readLine_unchecked, idFromString.
  rewrite (readLine_line _ _ _ Hline). unfold line.
  rewrite (Split_cons _ _ Hs), (Split_cons _ _ Hns), (Split_cons _ _ Hts),
    (Split_token _ Hps).
  rewrite Hid, nameFromString_spec, Hname.
  rewrite ParseInt_Itoa by (change (64 - 1) with 63; lia).
  rewrite ParseUint_Itoa by (split; [lia|]; cbn; lia).
  rewrite int_of_uint64_small by (cbn; lia).
  now rewrite (readBlock_in_range _ _ _ Hlen Hb).
Qed.

(** X13: a leased job that [readLeasedJob] returns has an id the UUID
    parser accepts, a name of the grammar [A-Za-z0-9_.-]{1,128}, a
    time-to-run within the [int] range and a payload of at most 1048576
    bytes. *)
Theorem readLeasedJob_valid (r r1 : Reader) (j : LeasedJob.t) :
  readLeasedJob uuid_FromString r = (Ok j, r1) ->
  uuid_FromString (LeasedJob.ID j) = true
  /\ spec_name (LeasedJob.Name j) = true
  /\ - 2 ^ 63 <= LeasedJob.TTR j < 2 ^ 63
  /\ len (LeasedJob.Payload j) <= 1048576.
Proof.
  unfold readLeasedJob, idFromString.
  destruct (readLine_unchecked r) as [line r0].
  destruct (Split line) as [|a [|b [|c [|d [|x l]]]]]; try discriminate.
  destruct (uuid_FromString a) eqn:Hid; [|discriminate].
  rewrite nameFromString_spec.
  destruct (spec_name b) eqn:Hname; [|discriminate].
  destruct (strconv.ParseInt c 64) as [e|ttr] eqn:Et; [discriminate|].
  destruct (strconv.ParseUint d 64) as [e|n]; [discriminate|].
  destruct (readBlock (int_of_uint64 n) r0) as [[payload|e] r2] eqn:E;
    [|discriminate].
  intros [= <- <-]. cbn [LeasedJob.ID LeasedJob.Name LeasedJob.TTR
                         LeasedJob.Payload].
  apply readBlock_ok_inv in E. apply ParseInt_bounds in Et; [|lia].
  change (64 - 1) with 63 in Et. repeat split; try assumption; lia.
Qed.

End RecordFacts.

Lemma parseInspectedJob_valid_witness :
  canonical_uuid testID = true
  /\ fieldsInRange
       (InspectedJob.set_State
          (InspectedJob.set_TTR
             (InspectedJob.set_ID (@InspectedJob.zero string) testID) 60)
          2).
Proof.
  exact (parseInspectedJob_valid canonical_uuid string utc_timestamp
           (stream (lines [testID ++ " 2"; "ttr 60"; "state 2"]))
           (stream "")
           (InspectedJob.set_State
              (InspectedJob.set_TTR
                 (InspectedJob.set_ID InspectedJob.zero testID) 60) 2)
           eq_refl).
Defined.

Lemma readInspectedJobs_ok_witness :
  0 <= 1
  /\ Z.of_nat (List.length
                 [InspectedJob.set_Name
                    (InspectedJob.set_ID (@InspectedJob.zero string) testID)
                    "j1"]) = 1
  /\ pending (stream "") = "".
Proof.
  exact (readInspectedJobs_ok canonical_uuid string utc_timestamp 1
           (stream (lines [testID ++ " 1"; "name j1"])) (stream "")
           [InspectedJob.set_Name
              (InspectedJob.set_ID InspectedJob.zero testID) "j1"]
           eq_refl).
Defined.

Lemma readLeasedJob_valid_witness :
  canonical_uuid testID = true /\ spec_name "j1" = true
  /\ - 2 ^ 63 <= 60 < 2 ^ 63 /\ len "a" <= 1048576.
Proof.
  exact (readLeasedJob_valid canonical_uuid
           (stream (lines [testID ++ " j1 60 1"; "a"])) (stream "")
           (LeasedJob.mk testID "j1" 60 "a") eq_refl).
Defined.

Lemma readResult_result_bounded_witness : len "a" <= 1048576.
Proof.
  exact (readResult_result_bounded
           (stream (lines [testID ++ " 1 1"; "a"])) (stream "")
           (JobResult.mk true "a") eq_refl).
Defined.

(** ** Lengths that do not fit *)

Lemma digits_string_of_uint_range (d : Decimal.uint) (acc maxVal : Z) :
  0 <= acc <= maxVal -> maxVal < decimal_value d acc ->
  strconv.digits (NilEmpty.string_of_uint d) acc maxVal
  = inl strconv.ErrRange.
Proof.
  revert acc; induction d; intros acc Ha Hv;
    cbn [NilEmpty.string_of_uint decimal_value strconv.digits] in *;
    try lia;
    match goal with
    | |- context [strconv.digit ?c] =>
        let v := eval vm_compute in (strconv.digit c) in
        change (strconv.digit c) with v
    end; cbv beta iota zeta;
    match goal with
    | |- context [?b >? maxVal] =>
        destruct (Z.gtb_spec b maxVal); [reflexivity | apply IHd; lia]
    end.
Qed.

(** [ParseUint] answers a number that does not fit with a range error. *)
Lemma ParseUint_Itoa_range (n bitSize : Z) :
  0 <= bitSize -> 2 ^ bitSize <= n ->
  strconv.ParseUint (strconv.Itoa n) bitSize = inl strconv.ErrRange.
Proof.
  intros Hb Hn.
  assert (0 < 2 ^ bitSize) by (apply Z.pow_pos_nonneg; lia).
  destruct n as [|p|p]; try lia.
  destruct (Itoa_pos p) as [He (c & s & Hs & _)].
  unfold strconv.ParseUint. rewrite Hs, <- Hs, He.
  apply digits_string_of_uint_range; rewrite ?decimal_value_to_uint; lia.
Qed.

(** X14: no declared result length above 1048576 gets through, however
    large: whether it fits an [int], wraps to a negative [int] when
    converted from [uint64], or does not fit 64 bits at all, the record is
    [ErrMalformed] and not one byte after its line is read. *)
Theorem readResult_rejects_oversize_length
    {B : Buffering} (id rest f : string) (success : bool) (n : Z) :
  noSpace id = true -> noLF id = true -> 1048576 < n ->
  readResult
    (mkReader (id ++ " " ++ (if success then "1" else "0") ++ " "
               ++ strconv.Itoa n ++ crnl ++ rest) f)
  = (Err ErrMalformed, mkReader rest f).
Proof.
  intros Hs Hl Hn.
  destruct (Itoa_token n) as [Hts Htl].
  set (flag := if success then "1" else "0").
  set (line := id ++ String SP (flag ++ String SP (strconv.Itoa n))).
  replace (id ++ " " ++ flag ++ " " ++ strconv.Itoa n ++ crnl ++ rest)
    with (line ++ crnl ++ rest)
    by (unfold line; cbn [append]; rewrite !app_assoc; cbn [append];
        rewrite !app_assoc; reflexivity).
  assert (Hline : noLF line = true).
  { unfold line, flag. rewrite noLF_app, Hl. cbn [andb noLF].
    rewrite noLF_app. destruct success; cbn; exact Htl. }
  unfold readResult, readLine_unchecked. rewrite (readLine_line _ _ _ Hline).
  unfold line. rewrite (Split_cons _ _ Hs).
  rewrite Split_cons by (unfold flag; now destruct success).
  rewrite (Split_token _ Hts).
  replace (negb (flag =? "0")%string && negb (flag =? "1")%string)
    with false by (unfold flag; now destruct success).
  destruct (Z.lt_ge_cases n (2 ^ 64)) as [Hlt|Hge].
  - rewrite ParseUint_Itoa by lia.
    unfold readBlock, int_of_uint64, maxDataBlock.
    destruct (Z.ltb_spec n (2 ^ 63)).
    + destruct (Z.ltb_spec n 0); [lia|]. rewrite Z.gtb_ltb.
      destruct (Z.ltb_spec 1048576 n); [reflexivity | lia].
    + destruct (Z.ltb_spec (n - 2 ^ 64) 0); [reflexivity | lia].
  - rewrite ParseUint_Itoa_range by lia. reflexivity.
Qed.

Lemma readResult_rejects_oversize_length_witness :
  readResult (stream (testID ++ " 1 1048577" ++ crnl ++ "a" ++ crnl))
  = (Err ErrMalformed, stream ("a" ++ crnl))
  /\ readResult
       (stream (testID ++ " 1 18446744073709551617" ++ crnl ++ "a" ++ crnl))
     = (Err ErrMalformed, stream ("a" ++ crnl)).
Proof.
  split.
  - apply (readResult_rejects_oversize_length testID ("a" ++ crnl) "EOF"
             true 1048577); [reflexivity | reflexivity | lia].
  - apply (readResult_rejects_oversize_length testID ("a" ++ crnl) "EOF"
             true 18446744073709551617); [reflexivity | reflexivity | lia].
Defined.

(** ** Commands *)

(** X15: when the write fails, each of the nine commands returns the
    transport's error as a [NetError] and leaves the client as it was:
    nothing is recorded as written and not one byte of the stream is
    read. *)
Theorem write_failure_is_NetError
    {B : Buffering} (uuid_FromString : string -> bool) (Time : Type)
    (time_Parse_RFC3339 : string -> option Time) (c : Client) (e : string) :
  wfail c = Some e ->
  (forall j, Add c j = (Err (NetError e), c))
  /\ (forall j, Run c j = (Err (NetError e), c))
  /\ (forall j, Schedule c j = (Err (NetError e), c))
  /\ (forall id timeout, Result c id timeout = (Err (NetError e), c))
  /\ (forall names timeout,
        Lease uuid_FromString c names timeout = (Err (NetError e), c))
  /\ (forall id result, Complete c id result = (Err (NetError e), c))
  /\ (forall id result, Fail c id result = (Err (NetError e), c))
  /\ (forall id, Delete c id = (Err (NetError e), c))
  /\ (forall name cursorOffset limit,
        InspectJobs uuid_FromString time_Parse_RFC3339 c name cursorOffset
          limit
        = (Err (NetError e), c)).
Proof.
  intros H.
  repeat split; intros;
    unfold Add, Run, Schedule, Result, Lease, Complete, Fail, Delete,
      InspectJobs, roundTrip, conn_Write;
    rewrite H; reflexivity.
Qed.

Lemma write_failure_is_NetError_witness :
  Delete (mkClient (stream ("+OK" ++ crnl)) "" (Some "A bad time")) testID
  = (Err (NetError "A bad time"),
     mkClient (stream ("+OK" ++ crnl)) "" (Some "A bad time")).
Proof.
  apply (write_failure_is_NetError canonical_uuid string utc_timestamp
           (mkClient (stream ("+OK" ++ crnl)) "" (Some "A bad time"))
           "A bad time" eq_refl).
Defined.

Lemma Schedule_flags_suffix (j : ScheduledJob.t) :
  (if Z.of_nat (List.length (Schedule_flags j)) >? 0 then " " else "")
    ++ Join (Schedule_flags j) " "
  = spec_flag "priority" (ScheduledJob.Priority j)
    ++ spec_flag "max-attempts" (ScheduledJob.MaxAttempts j)
    ++ spec_flag "max-fails" (ScheduledJob.MaxFails j).
Proof.
  unfold Schedule_flags, spec_flag.
  destruct (ScheduledJob.Priority j =? 0), (ScheduledJob.MaxAttempts j =? 0),
    (ScheduledJob.MaxFails j =? 0); cbn; rewrite ?app_assoc, ?app_empty_r;
    reflexivity.
Qed.

(** X16: [Schedule] writes the mandatory fields, the time among them, then
    the same flag suffix as [Add]: priority, max-attempts, max-fails in
    this order, each left out when zero, one space before each flag that
    is there and none when there is no flag.  *)
Theorem Schedule_wire_format (j : ScheduledJob.t) :
  Schedule_request j
  = "schedule " ++ ScheduledJob.ID j ++ " " ++ ScheduledJob.Name j ++ " "
    ++ strconv.Itoa (ScheduledJob.TTR j) ++ " "
    ++ strconv.Itoa (ScheduledJob.TTL j) ++ " " ++ ScheduledJob.Time j
    ++ " " ++ strconv.Itoa (len (ScheduledJob.Payload j))
    ++ spec_flag "priority" (ScheduledJob.Priority j)
    ++ spec_flag "max-attempts" (ScheduledJob.MaxAttempts j)
    ++ spec_flag "max-fails" (ScheduledJob.MaxFails j)
    ++ crnl ++ ScheduledJob.Payload j ++ crnl.
Proof.
  unfold Schedule_request. cbv zeta. rewrite Schedule_flags_suffix.
  now rewrite !app_assoc.
Qed.

Lemma parseOkWithReply_one (rest f : string) :
  parseOkWithReply (mkReader ("+OK 1" ++ crnl ++ rest) f)
  = (Ok 1, mkReader rest f).
Proof. reflexivity. Qed.

(** X17: [Run] and [Result] round-trip a result.  On the reply "+OK 1"
    followed by a record "<id> <0|1> <length>", a result of that length
    and the terminator, both return the success flag and the result byte
    for byte, carriage returns and line feeds in it included, when the
    terminator of the block is in the buffer at the time it is read; the
    request has been written and the reader stands after the record. *)
Theorem Run_Result_round_trip
    {B : Buffering} (id result rest f w : string) (success : bool) :
  noSpace id = true -> noLF id = true -> len result <= 1048576 ->
  (2 <= buffered (mkReader (crnl ++ rest) f))%nat ->
  let resp := "+OK 1" ++ crnl ++ id ++ " "
              ++ (if success then "1" else "0") ++ " "
              ++ strconv.Itoa (len result) ++ crnl ++ result ++ crnl ++ rest in
  (forall j,
      Run (mkClient (mkReader resp f) w None) j
      = (Ok (JobResult.mk success result),
         mkClient (mkReader rest f) (w ++ Run_request j) None))
  /\ (forall jobID timeout,
        Result (mkClient (mkReader resp f) w None) jobID timeout
        = (Ok (JobResult.mk success result),
           mkClient (mkReader rest f)
                    (w ++ "result " ++ jobID ++ " " ++ strconv.Itoa timeout
                     ++ crnl) None)).
Proof.
  intros Hs Hl Hlen Hb resp.
  assert (H : oneRecord readResult (mkReader resp f)
              = (Ok (JobResult.mk success result), mkReader rest f)).
  { unfold oneRecord, bind, resp. rewrite parseOkWithReply_one.
    cbn [Z.eqb Pos.eqb negb].
    exact (readResult_round_trip id result rest f success Hs Hl Hlen Hb). }
  split; intros; unfold Run, Result, roundTrip, conn_Write, parse;
    cbn [wfail rdr wrt]; now rewrite H.
Qed.

Lemma Run_Result_round_trip_witness :
  Result (NewClient ("+OK 1" ++ crnl ++ testID ++ " 0 4" ++ crnl
                     ++ ("a" ++ crnl ++ "b") ++ crnl))
         testID 1000
  = (Ok (JobResult.mk false ("a" ++ crnl ++ "b")),
     mkClient (stream "") ("result " ++ testID ++ " 1000" ++ crnl) None).
Proof.
  apply (proj2 (Run_Result_round_trip (B := whole_response)
                  testID ("a" ++ crnl ++ "b") "" "EOF" ""
                  false eq_refl eq_refl ltac:(cbn; lia) ltac:(cbn; lia))).
Defined.

(** X18: [Lease] round-trips a job.  On the reply "+OK 1" followed by a
    record "<id> <name> <ttr> <length>" with a valid id and name, a
    payload of that length and the terminator, it returns the job with
    these four values, the payload byte for byte, when the terminator of
    the block is in the buffer at the time it is read. *)
Theorem Lease_round_trip
    {B : Buffering} (uuid_FromString : string -> bool)
    (id name payload rest f w : string) (ttr : Z) (names : list string)
    (timeout : Z) :
  uuid_FromString id = true -> noSpace id = true -> noLF id = true ->
  spec_name name = true ->
  - 2 ^ 63 <= ttr < 2 ^ 63 ->
  len payload <= 1048576 ->
  (2 <= buffered (mkReader (crnl ++ rest) f))%nat ->
  Lease uuid_FromString
    (mkClient
       (mkReader ("+OK 1" ++ crnl ++ id ++ " " ++ name ++ " "
                  ++ strconv.Itoa ttr ++ " " ++ strconv.Itoa (len payload)
                  ++ crnl ++ payload ++ crnl ++ rest) f)
       w None)
    names timeout
  = (Ok (LeasedJob.mk id name ttr payload),
     mkClient (mkReader rest f)
              (w ++ "lease " ++ Join names " " ++ " " ++ strconv.Itoa timeout
               ++ crnl) None).
Proof.
  intros Hid Hs Hl Hname Httr Hlen Hb.
  unfold Lease, roundTrip, conn_Write, parse. cbn [wfail rdr wrt].
  unfold oneRecord, bind. rewrite parseOkWithReply_one.
  cbn [Z.eqb Pos.eqb negb].
  now rewrite (readLeasedJob_round_trip uuid_FromString id name payload rest
                 f ttr Hid Hs Hl Hname Httr Hlen Hb).
Qed.

Lemma Lease_round_trip_witness :
  Lease canonical_uuid
    (NewClient ("+OK 1" ++ crnl ++ testID ++ " ping.1 -5 3" ++ crnl
                ++ "a b" ++ crnl))
    ["ping.1"; "ping.2"] 60000
  = (Ok (LeasedJob.mk testID "ping.1" (-5) "a b"),
     mkClient (stream "") ("lease ping.1 ping.2 60000" ++ crnl) None).
Proof.
  apply (Lease_round_trip canonical_uuid testID "ping.1" "a b" "" "EOF" ""
           (-5) ["ping.1"; "ping.2"] 60000);
    try reflexivity; cbn; lia.
Defined.

(** ** Requests, read back *)

Lemma Split_Join (l : list string) :
  l <> [] -> forallb noSpace l = true -> Split (Join l " ") = l.
Proof.
  induction l as [|x l IH]; [congruence|]. intros _ H.
  cbn [forallb] in H. apply andb_prop in H as [Hx Hl].
  destruct l as [|y l]; [exact (Split_token _ Hx)|].
  change (Join (x :: y :: l) " ") with (x ++ String SP (Join (y :: l) " ")).
  rewrite (Split_cons _ _ Hx), IH; [reflexivity | discriminate | exact Hl].
Qed.

Lemma noLF_Join (l : list string) :
  forallb noLF l = true -> noLF (Join l " ") = true.
Proof.
  induction l as [|x l IH]; [reflexivity|]. intros H.
  cbn [forallb] in H. apply andb_prop in H as [Hx Hl].
  destruct l as [|y l]; [exact Hx|].
  change (Join (x :: y :: l) " ") with (x ++ String SP (Join (y :: l) " ")).
  rewrite noLF_app, Hx. cbn [noLF andb Ascii.eqb Bool.eqb negb].
  exact (IH Hl).
Qed.

Lemma Join_cons (x : string) (l : list string) :
  Join (x :: l) " "
  = x ++ (if Z.of_nat (List.length l) >? 0 then " " else "") ++ Join l " ".
Proof.
  destruct l as [|y l]; [now rewrite app_empty_r|].
  change (Z.of_nat (List.length (y :: l)) >? 0) with true. reflexivity.
Qed.

(** The line of [Add] is its fields joined by single spaces. *)
Lemma Add_request_fields (j : BgJob.t) :
  Add_request j
  = Join (Add_fields j) " " ++ crnl ++ BgJob.Payload j ++ crnl.
Proof.
  unfold Add_request, Add_fields. cbv zeta.
  cbn [List.app]. 
  change (Join ("add" :: BgJob.ID j :: BgJob.Name j
                :: strconv.Itoa (BgJob.TTR j) :: strconv.Itoa (BgJob.TTL j)
                :: strconv.Itoa (len (BgJob.Payload j)) :: Add_flags j) " ")
    with ("add" ++ " " ++ BgJob.ID j ++ " " ++ BgJob.Name j ++ " "
          ++ strconv.Itoa (BgJob.TTR j) ++ " " ++ strconv.Itoa (BgJob.TTL j)
          ++ " " ++ Join (strconv.Itoa (len (BgJob.Payload j)) :: Add_flags j)
                      " ").
  rewrite Join_cons. rewrite !app_assoc. reflexivity.
Qed.

Lemma flag_token (name : string) (v : Z) :
  noSpace name = true -> noLF name = true ->
  noSpace (name ++ strconv.Itoa v) = true
  /\ noLF (name ++ strconv.Itoa v) = true.
Proof.
  intros H1 H2. destruct (Itoa_token v) as [H3 H4].
  now rewrite noSpace_app, noLF_app, H1, H2, H3, H4.
Qed.

Lemma Add_flags_tokens (j : BgJob.t) :
  forallb noSpace (Add_flags j) = true /\ forallb noLF (Add_flags j) = true.
Proof.
  unfold Add_flags.
  destruct (flag_token "-priority=" (BgJob.Priority j) eq_refl eq_refl)
    as [A1 A2].
  destruct (flag_token "-max-attempts=" (BgJob.MaxAttempts j) eq_refl eq_refl)
    as [B1 B2].
  destruct (flag_token "-max-fails=" (BgJob.MaxFails j) eq_refl eq_refl)
    as [C1 C2].
  destruct (BgJob.Priority j =? 0), (BgJob.MaxAttempts j =? 0),
    (BgJob.MaxFails j =? 0); cbn [negb List.app forallb];
    rewrite ?A1, ?A2, ?B1, ?B2, ?C1, ?C2; split; reflexivity.
Qed.

(** X19: what [Add] writes can be read back.  With an id and a name that
    hold no space and no line feed, the bytes are one line that splits on
    single spaces into exactly the verb, id, name, ttr, ttl, payload
    length and the flags; the sixth field is the decimal byte length of
    the payload, and what comes after the line is the payload, whatever
    bytes it holds, and the terminator. *)
Theorem Add_request_decodes (j : BgJob.t) :
  noSpace (BgJob.ID j) = true -> noLF (BgJob.ID j) = true ->
  noSpace (BgJob.Name j) = true -> noLF (BgJob.Name j) = true ->
  len (BgJob.Payload j) < 2 ^ 64 ->
  exists line,
    readLine (stream (Add_request j))
    = (Ok line, stream (BgJob.Payload j ++ crnl))
    /\ Split line = Add_fields j
    /\ strconv.ParseUint (nth 5 (Split line) "") 64
       = inr (len (BgJob.Payload j)).
Proof.
  intros Hi1 Hi2 Hn1 Hn2 Hlen.
  destruct (Add_flags_tokens j) as [Hf1 Hf2].
  destruct (Itoa_token (BgJob.TTR j)) as [A1 A2].
  destruct (Itoa_token (BgJob.TTL j)) as [B1 B2].
  destruct (Itoa_token (len (BgJob.Payload j))) as [C1 C2].
  pose proof (len_nonneg (BgJob.Payload j)) as H0.
  exists (Join (Add_fields j) " ").
  assert (Hsplit : Split (Join (Add_fields j) " ") = Add_fields j).
  { apply Split_Join; [discriminate|]. unfold Add_fields.
    cbn [List.app forallb]. rewrite Hi1, Hn1, A1, B1, C1, Hf1. reflexivity. }
  repeat split.
  - rewrite Add_request_fields. unfold stream.
    apply readLine_line, noLF_Join. unfold Add_fields.
    cbn [List.app forallb]. rewrite Hi2, Hn2, A2, B2, C2, Hf2. reflexivity.
  - exact Hsplit.
  - rewrite Hsplit. cbn [Add_fields List.app nth].
    apply ParseUint_Itoa. lia.
Qed.

Lemma Add_request_decodes_witness :
  exists line,
    readLine (stream (Add_request
                        (BgJob.mk testID "j1" 60 60000 ("a" ++ crnl ++ "b")
                                  0 3 0)))
    = (Ok line, stream (("a" ++ crnl ++ "b") ++ crnl))
    /\ Split line = ["add"; testID; "j1"; "60"; "60000"; "4";
                     "-max-attempts=3"]
    /\ strconv.ParseUint (nth 5 (Split line) "") 64 = inr 4.
Proof.
  apply (Add_request_decodes
           (BgJob.mk testID "j1" 60 60000 ("a" ++ crnl ++ "b") 0 3 0));
    reflexivity.
Defined.

(** X20: what [Complete] and [Fail] write can be read back.  With an id
    that holds no space and no line feed, the bytes are the line
    "<verb> <id> <length>", its third field the decimal byte length of
    the result, and after it the result, whatever bytes it holds, and the
    terminator. *)
Theorem result_request_decodes (verb id result : string) :
  verb = "complete" \/ verb = "fail" ->
  noSpace id = true -> noLF id = true ->
  len result < 2 ^ 64 ->
  exists line,
    readLine (stream (result_request verb id result))
    = (Ok line, stream (result ++ crnl))
    /\ Split line = [verb; id; strconv.Itoa (len result)]
    /\ strconv.ParseUint (nth 2 (Split line) "") 64 = inr (len result).
Proof.
  intros Hv Hs Hl Hlen.
  destruct (Itoa_token (len result)) as [C1 C2].
  pose proof (len_nonneg result) as H0.
  assert (Hvs : noSpace verb = true /\ noLF verb = true)
    by (destruct Hv as [->| ->]; split; reflexivity).
  destruct Hvs as [V1 V2].
  set (line := verb ++ String SP (id ++ String SP (strconv.Itoa (len result)))).
  assert (Hsplit : Split line = [verb; id; strconv.Itoa (len result)]).
  { unfold line.
    now rewrite (Split_cons _ _ V1), (Split_cons _ _ Hs), (Split_token _ C1). }
  exists line. repeat split.
  - unfold result_request, stream.
    replace (verb ++ " " ++ id ++ " " ++ strconv.Itoa (len result) ++ crnl
             ++ result ++ crnl)
      with (line ++ crnl ++ result ++ crnl)
      by (unfold line; cbn [append]; rewrite !app_assoc; cbn [append];
          rewrite !app_assoc; reflexivity).
    apply readLine_line. unfold line.
    rewrite noLF_app, V2. cbn [noLF andb Ascii.eqb Bool.eqb negb].
    rewrite noLF_app, Hl. cbn [noLF andb Ascii.eqb Bool.eqb negb].
    exact C2.
  - exact Hsplit.
  - rewrite Hsplit. cbn [nth]. apply ParseUint_Itoa. lia.
Qed.

Lemma result_request_decodes_witness :
  exists line,
    readLine (stream (result_request "fail" testID ("a" ++ crnl)))
    = (Ok line, stream (("a" ++ crnl) ++ crnl))
    /\ Split line = ["fail"; testID; "3"]
    /\ strconv.ParseUint (nth 2 (Split line) "") 64 = inr 3.
Proof.
  apply (result_request_decodes "fail" testID ("a" ++ crnl));
    [right; reflexivity | reflexivity | reflexivity | cbn; lia].
Defined.

(** ** Names *)

Lemma inString_In (c : ascii) (s : string) :
  inString c s = true <-> In c (list_ascii_of_string s).
Proof.
  induction s as [|a s IH]; cbn [inString list_ascii_of_string In].
  - split; [discriminate | contradiction].
  - destruct (Ascii.eqb_spec c a) as [->|Hne]; cbn [orb].
    + split; auto.
    + rewrite IH. split; [auto | intros [H|H]; [congruence | exact H]].
Qed.

Lemma allIn_Forall (alphabet s : string) :
  allIn alphabet s = true
  <-> forall c, In c (list_ascii_of_string s) ->
                In c (list_ascii_of_string alphabet).
Proof.
  induction s as [|a s IH]; cbn [allIn list_ascii_of_string In].
  - split; [contradiction | reflexivity].
  - rewrite andb_true_iff, IH, inString_In. split.
    + intros [Ha Hs] c [<-|Hc]; auto.
    + intros H. split; [apply H; auto | intros c Hc; apply H; auto].
Qed.

(** X21: [nameFromString] accepts exactly the names of 1 to 128 bytes, each
    one a letter, a digit, "_", "." or "-", and returns an accepted name
    unchanged; every other string, the empty one included, is
    [ErrMalformed]. *)
Theorem nameFromString_grammar (name : string) :
  (nameFromString name = Ok name
   <-> (1 <= String.length name <= 128)%nat
       /\ forall c, In c (list_ascii_of_string name) ->
                    In c (list_ascii_of_string nameAlphabet))
  /\ (nameFromString name = Ok name
      \/ nameFromString name = Err ErrMalformed).
Proof.
  rewrite nameFromString_spec, <- allIn_Forall. split.
  - split.
    + destruct (spec_name name) eqn:E; [intros _|discriminate].
      unfold spec_name in E. rewrite !andb_true_iff in E.
      destruct E as [[E1 E2] E3].
      apply Nat.leb_le in E1. apply Nat.leb_le in E2. auto.
    + intros [[E1 E2] E3].
      assert (E : spec_name name = true).
      { unfold spec_name. rewrite !andb_true_iff.
        repeat split; [apply Nat.leb_le | apply Nat.leb_le |]; assumption. }
      now rewrite E.
  - destruct (spec_name name); auto.
Qed.

Lemma nameFromString_grammar_witness :
  nameFromString "ping_1.a-B" = Ok "ping_1.a-B".
Proof.
  apply (proj2 (proj1 (nameFromString_grammar "ping_1.a-B"))).
  split; [cbn; lia|].
  intros c H. apply inString_In. cbn in H.
  repeat (destruct H as [<-|H]; [reflexivity|]). contradiction.
Defined.

(** ** Keys of an inspected job *)

Lemma ParseUint_Itoa_negative (n bitSize : Z) :
  n < 0 -> strconv.ParseUint (strconv.Itoa n) bitSize = inl strconv.ErrSyntax.
Proof. intros H. destruct n as [|p|p]; try lia. reflexivity. Qed.

Section KeyFacts.

Context {B : Buffering}.
Variable Time : Type.
Variable time_Parse_RFC3339 : string -> option Time.

(** X22: in the key loop of an inspected job, a line that is not two
    fields, or whose key is none of the twelve the decoder knows, is
    [ErrMalformed]; the keys are compared byte for byte, so "Name" or
    "TTR" is unknown. *)
Theorem keyLoop_unknown_key
    (n : nat) (j : InspectedJob.t Time) (r r1 : Reader) (line : string) :
  readLine r = (Ok line, r1) ->
  List.length (Split line) <> 2%nat
  \/ ~ In (hd "" (Split line)) inspectKeys ->
  keyLoop time_Parse_RFC3339 (S n) j r = (Err ErrMalformed, r1).
Proof.
  intros Hl H. cbn [keyLoop]. rewrite Hl.
  destruct (Split line) as [|key [|value [|x l]]]; try reflexivity.
  destruct H as [H|H]; [now contradiction H|].
  cbn [hd] in H. unfold inspectKeys in H. cbn [In] in H.
  repeat match goal with
  | |- context [if (key =? ?k)%string then _ else _] =>
      destruct (String.eqb_spec key k); [exfalso; apply H; auto 20|]
  end.
  reflexivity.
Qed.

(** X23: the counters and the state of an inspected job are 8-bit values:
    the line "<key> <n>" with [n] negative or above 255 is [ErrMalformed],
    for each of max-attempts, attempts, max-fails, fails and state. *)
Theorem counter_out_of_range
    (m : nat) (j : InspectedJob.t Time) (key rest f : string) (n : Z) :
  In key counterKeys -> n < 0 \/ 255 < n ->
  keyLoop time_Parse_RFC3339 (S m) j
    (mkReader (key ++ " " ++ strconv.Itoa n ++ crnl ++ rest) f)
  = (Err ErrMalformed, mkReader rest f).
Proof.
  intros Hk Hn. destruct (Itoa_token n) as [Hs Hl].
  assert (Hp : exists e, strconv.ParseUint (strconv.Itoa n) 8 = inl e).
  { destruct Hn; [rewrite ParseUint_Itoa_negative by lia
                 | rewrite ParseUint_Itoa_range by (cbn; lia)]; eauto. }
  destruct Hp as [e Hp].
  assert (Hkey : noSpace key = true /\ noLF key = true).
  { unfold counterKeys in Hk. cbn [In] in Hk.
    repeat (destruct Hk as [<-|Hk]; [split; reflexivity|]). contradiction. }
  destruct Hkey as [K1 K2].
  replace (key ++ " " ++ strconv.Itoa n ++ crnl ++ rest)
    with ((key ++ String SP (strconv.Itoa n)) ++ crnl ++ rest)
    by (cbn [append]; rewrite !app_assoc; reflexivity).
  cbn [keyLoop]. rewrite readLine_line
    by (rewrite noLF_app, K2; cbn [noLF andb Ascii.eqb Bool.eqb negb];
        exact Hl).
  rewrite (Split_cons _ _ K1), (Split_token _ Hs). unfold numKey.
  unfold counterKeys in Hk. cbn [In] in Hk.
  repeat (destruct Hk as [<-|Hk];
          [cbn [String.eqb Ascii.eqb Bool.eqb]; now rewrite Hp|]).
  contradiction.
Qed.

End KeyFacts.

Lemma keyLoop_unknown_key_witness :
  keyLoop utc_timestamp 1 InspectedJob.zero (stream (lines ["Name j1"]))
  = (Err ErrMalformed, stream "").
Proof.
  apply (keyLoop_unknown_key string utc_timestamp 0 InspectedJob.zero
           (stream (lines ["Name j1"])) (stream "") "Name j1" eq_refl).
  right. cbn. intuition discriminate.
Defined.

Lemma counter_out_of_range_witness :
  keyLoop utc_timestamp 1 InspectedJob.zero
          (stream ("attempts 256" ++ crnl))
  = (Err ErrMalformed, stream "")
  /\ keyLoop utc_timestamp 1 InspectedJob.zero
             (stream ("state -1" ++ crnl))
     = (Err ErrMalformed, stream "").
Proof.
  split.
  - apply (counter_out_of_range string utc_timestamp 0 InspectedJob.zero
             "attempts" "" "EOF" 256); [cbn; auto | right; lia].
  - apply (counter_out_of_range string utc_timestamp 0 InspectedJob.zero
             "state" "" "EOF" (-1)); [cbn; auto 10 | left; lia].
Defined.
